(** * EvolutionThesis: the page-grid collator and the word-cloud continuity engine

    A shallow embedding of [collate_pages.py] ([determine_ideal_shape],
    [add_border_c], [arrange_pages_horizontal]) and of [create_figure.py]
    ([transfer_stats_between_wc], [scale_wordcloud]), with the properties the
    specification states about them. *)

From Stdlib Require Import ZArith Lia Floats.
From stdpp Require Import gmap strings list fin_maps pretty sorting.

Local Open Scope Z_scope.

(** ** Python outcomes

    A call either returns a value or raises.  Only the exceptions that the
    embedded functions can raise are listed. *)

Inductive pyexc : Type :=
  | IndexError          (* [pages[0]] on an empty list *)
  | ValueError          (* numpy: reshape or broadcast of incompatible shapes *)
  | AssertionError      (* [assert False] *)
  | UnboundLocalError   (* a local read before any assignment *)
  | ZeroDivisionError   (* true division of Python ints by 0 *)
  | AttributeError      (* [c.layout_] at an address that holds no cloud *)
  | OverflowError       (* a Python int with no binary64 value, or a quotient with none *)
  | TypeError.          (* [np.log10] of a Python int that is no 64-bit integer *)

Inductive pyresult (A : Type) : Type :=
  | Return (a : A)
  | Raise (e : pyexc).

Arguments Return {A} a.
Arguments Raise {A} e.

#[global] Instance pyresult_ret : MRet pyresult := fun A a => Return a.

#[global] Instance pyresult_bind : MBind pyresult := fun A B k m =>
  match m with
  | Return a => k a
  | Raise e => Raise e
  end.

(** ** GridShapeSelector: [determine_ideal_shape] *)

Module Shape.

Definition A4_page_size : Z * Z := (210, 297).
Definition available_size_image : Z * Z := (780, 668).

(** [math.floor(a / b)] on positive integers is the integer quotient. *)
Definition num_a4_on_rows : Z := fst available_size_image / fst A4_page_size.
Definition num_a4_on_cols : Z := snd available_size_image / snd A4_page_size.

(** Number of cells of a [(rows, cols)] shape. *)
Definition capacity (s : Z * Z) : Z := fst s * snd s.

(** One pass through the body of [for i in range(100)], up to the test:
    the adders after the increment of step [i]. *)
Definition grow (i : Z) (adders : Z * Z) : Z * Z :=
  if i mod 2 =? 0 then (fst adders + 1, snd adders)
  else (fst adders, snd adders + 1).

(** The shape the test of the loop looks at. *)
Definition shape_of (adders : Z * Z) : Z * Z :=
  (num_a4_on_rows + fst adders, num_a4_on_cols + snd adders).

(** The loop with [n] iterations left, the next one being iteration [i];
    [break] returns the current adders, and so does the end of the range. *)
Fixpoint shape_loop (n : nat) (i : Z) (adders : Z * Z) (size : Z) : Z * Z :=
  match n with
  | O => adders
  | S n' =>
      let adders' := grow i adders in
      if capacity (shape_of adders') >=? size then adders'
      else shape_loop n' (i + 1) adders' size
  end.

(** [determine_ideal_shape], as a function of [size = len(list_of_images)].
    Nothing in its body raises. *)
Definition determine_ideal_shape (size : Z) : pyresult (Z * Z) :=
  let adders := shape_loop 100 0 (0, 0) size in
  let number_cols := num_a4_on_cols + snd adders in
  let number_rows := num_a4_on_rows + fst adders in
  Return (number_rows, number_cols).

(** The adders after [n] iterations none of which breaks. *)
Fixpoint grow_all (n : nat) (i : Z) (adders : Z * Z) : Z * Z :=
  match n with
  | O => adders
  | S n' => grow_all n' (i + 1) (grow i adders)
  end.

(** A test that [n] growth steps from the base shape find room for [size]. *)
Definition reached_within (n : nat) (size : Z) : bool :=
  existsb (fun k => capacity (shape_of (grow_all k 0 (0, 0))) >=? size) (seq 1 n).

End Shape.

(** ** TileCanvas: [add_border], [add_border_c], [arrange_pages_horizontal] *)

Module Canvas.

(** A pixel: the three colour channels, as Python integers. *)
Definition pixel : Type := Z * Z * Z.

(** A numpy array of shape [(height, width, 3)]: its first two dimensions and
    its contents by row and column.  Contents outside the shape are never
    read by the properties below. *)
Record ndarray : Type := NdArray {
  height : nat;
  width : nat;
  data : nat -> nat -> pixel
}.

Definition shape (a : ndarray) : nat * nat := (height a, width a).

(** Storing an array of integers into an array of dtype [uint8] keeps the
    low eight bits.  The integers are those of a numpy array of integers, of
    64 bits at most: a colour with a channel beyond them makes [np.full]
    build an array of objects, which is not stored this way (the assignment
    raises [OverflowError]). *)
Definition astype_uint8 (p : pixel) : pixel :=
  let '(r, g, b) := p in (r mod 256, g mod 256, b mod 256).



Definition is_uint8 (p : pixel) : Prop :=
  let '(r, g, b) := p in 0 <= r < 256 /\ 0 <= g < 256 /\ 0 <= b < 256.

(** An image as [imageio.imread] gives it for an 8-bit RGB file. *)
Definition uint8_image (a : ndarray) : Prop :=
  forall y x, (y < height a)%nat -> (x < width a)%nat -> is_uint8 (data a y x).

(** [np.zeros((h, w, 3))] and [np.full((h, w, 3), color)]. *)
Definition np_zeros (h w : nat) : ndarray := NdArray h w (fun _ _ => (0, 0, 0)).
Definition np_full (h w : nat) (color : pixel) : ndarray := NdArray h w (fun _ _ => color).

(** The bounds of the slice [start:stop] on an axis of length [n]. *)
Definition slice_bounds (n start stop : nat) : nat * nat :=
  (Nat.min start n, Nat.min stop n).

(** The stop of the slice [b:-b] on an axis of length [n]: [-0] is [0]. *)
Definition neg_stop (n b : nat) : nat :=
  if (b =? 0)%nat then O else (n - b)%nat.

(** A source axis of length [s] is assigned to a slice of length [d] when the
    lengths agree or the source has length one (broadcasting). *)
Definition broadcasts (s d : nat) : bool := (s =? d)%nat || (s =? 1)%nat.

Definition src_index (s off : nat) : nat := if (s =? 1)%nat then O else off.

(** [a[r0:r1, c0:c1, :] = src], the stored values going through [cast];
    numpy raises [ValueError] when [src] cannot be broadcast to the slice. *)
Definition setitem_slice (cast : pixel -> pixel) (a : ndarray)
    (r0 r1 c0 c1 : nat) (src : ndarray) : pyresult ndarray :=
  let '(y0, y1) := slice_bounds (height a) r0 r1 in
  let '(x0, x1) := slice_bounds (width a) c0 c1 in
  if broadcasts (height src) (y1 - y0) && broadcasts (width src) (x1 - x0) then
    Return (NdArray (height a) (width a) (fun y x =>
      if (y0 <=? y)%nat && (y <? y1)%nat && (x0 <=? x)%nat && (x <? x1)%nat
      then cast (data src (src_index (height src) (y - y0)) (src_index (width src) (x - x0)))
      else data a y x))
  else Raise ValueError.

(** [add_border]: a zero border of [width_] pixels; the new array is of
    dtype [float64], which holds the values of a [uint8] image unchanged. *)
Definition add_border (image : ndarray) (width_ : nat) : pyresult ndarray :=
  let newimage := np_zeros (height image + width_ * 2) (width image + width_ * 2) in
  setitem_slice id newimage
    width_ (neg_stop (height newimage) width_)
    width_ (neg_stop (width newimage) width_) image.

(** [add_border_c]: a border of colour [color]; [np.full] gives an integer
    array wide enough for the colour and for the values of a [uint8] image. *)
Definition add_border_c (image : ndarray) (border_width : nat) (color : pixel)
    : pyresult ndarray :=
  let rows := height image in
  let cols := width image in
  let newimage := np_full (rows + border_width * 2) (cols + border_width * 2) color in
  setitem_slice id newimage
    border_width (neg_stop (height newimage) border_width)
    border_width (neg_stop (width newimage) border_width) image.

(** [for x in range(n)] threading the loop's state, stopping at the first
    exception. *)
Fixpoint for_range {A : Type} (n : nat) (start : nat)
    (body : nat -> A -> pyresult A) (a : A) : pyresult A :=
  match n with
  | O => Return a
  | S n' => a' ← body start a; for_range n' (S start) body a'
  end.

(** [np.array(pages).reshape((num_rows, num_cols))]: the list itself, read
    at [i * num_cols + j] for [arr_pages[i, j]]; [ValueError] when the number
    of elements is not [num_rows * num_cols]. *)
Definition reshape {A : Type} (l : list A) (num_rows num_cols : nat) : pyresult (list A) :=
  if (length l =? num_rows * num_cols)%nat then Return l else Raise ValueError.

(** [arrange_pages_horizontal].  A page is given by the image that
    [imageio.imread] reads at its path; the padding of the list is [None]. *)
Definition arrange_pages_horizontal (pages : list ndarray) (num_rows num_cols : nat)
    (background_color : pixel) : pyresult ndarray :=
  test_page ← match pages with
              | [] => Raise IndexError
              | p :: _ => Return p
              end;
  t_bpage ← add_border test_page 1;
  let '(t_bpage_h, t_bpage_w) := shape t_bpage in
  let canvas := np_zeros (num_rows * t_bpage_h) (num_cols * t_bpage_w) in
  let ideal_num_pages := (num_rows * num_cols)%nat in
  let extra_required_pages := Z.of_nat ideal_num_pages - Z.of_nat (length pages) in
  let pages := (Some <$> pages) ++ replicate (Z.to_nat extra_required_pages) None in
  arr_pages ← reshape pages num_rows num_cols;
  for_range num_rows 0 (fun i canvas =>
    for_range num_cols 0 (fun j canvas =>
      bpage ← match arr_pages !! (i * num_cols + j)%nat with
              | Some (Some page) => add_border_c page 1 (0, 0, 0)
              | Some None => Return (np_full t_bpage_h t_bpage_w background_color)
              | None => Raise IndexError
              end;
      setitem_slice astype_uint8 canvas
        (i * t_bpage_h) ((i + 1) * t_bpage_h)
        (j * t_bpage_w) ((j + 1) * t_bpage_w) bpage) canvas) canvas.

(** The bordered tile of the data model: the tile inside a one-pixel black
    frame. *)
Definition bordered (tile : ndarray) : ndarray :=
  NdArray (height tile + 2) (width tile + 2) (fun y x =>
    if (1 <=? y)%nat && (y <=? height tile)%nat && (1 <=? x)%nat && (x <=? width tile)%nat
    then data tile (y - 1) (x - 1) else (0, 0, 0)).

(** What cell [k] of the grid is to show, tiles having [h] rows and [w]
    columns: the bordered tile [k], or a blank page past the last tile. *)
Definition cell_image (pages : list ndarray) (background_color : pixel) (h w k : nat)
    : ndarray :=
  match pages !! k with
  | Some tile => bordered tile
  | None => np_full (h + 2) (w + 2) background_color
  end.

(** The first [n] cells of [canvas], in row-major order, show their images. *)
Definition filled (pages : list ndarray) (background_color : pixel) (h w num_cols : nat)
    (canvas : ndarray) (n : nat) : Prop :=
  forall k y x, (k < n)%nat -> (y < h + 2)%nat -> (x < w + 2)%nat ->
    data canvas (k / num_cols * (h + 2) + y) (k mod num_cols * (w + 2) + x) =
      astype_uint8 (data (cell_image pages background_color h w k) y x).

End Canvas.

(** ** LayoutContinuityTransfer and LayoutScaler:
       [transfer_stats_between_wc], [scale_wordcloud] *)

Module Cloud.

(** Python values found in a layout: [None], integers, [np.float64] numbers,
    strings and tuples. *)
#[warnings="-register-all"]
Inductive pyobj : Type :=
  | PyNone
  | PyInt (z : Z)
  | PyFloat (f : float)
  | PyStr (s : string)
  | PyTuple (items : list pyobj).

(** A font size: the Python [int] the word-cloud generator gives, the Python
    [float] a linear scaling of integers leaves, or the [np.float64] that any
    other scaling leaves. *)
Inductive pynum : Type :=
  | NumInt (z : Z)
  | NumFloat (f : float)
  | NumFloat64 (f : float).

(** An item of [layout_]: the tuple [((word, unk), fs, pos, or_, col)]. *)
Record entry : Type := Entry {
  word : string;
  unk : pyobj;
  fs : pynum;
  pos : pyobj;
  or_ : pyobj;
  col : pyobj
}.

(** A [WordCloud] object is known by its address; the heap gives the list
    that its attribute [layout_] holds. *)
Abbreviation cloud := positive.
Abbreviation heap := (gmap positive (list entry)).

(** Code that reads and writes the heap and may raise; the heap at the
    point of the exception is kept. *)
Definition py (A : Type) : Type := heap -> pyresult A * heap.

#[global] Instance py_ret : MRet py := fun A a h => (Return a, h).

#[global] Instance py_bind : MBind py := fun A B k m h =>
  match m h with
  | (Return a, h') => k a h'
  | (Raise e, h') => (Raise e, h')
  end.

(** A computation that leaves the heap alone. *)
Definition lift {A : Type} (r : pyresult A) : py A := fun h => (r, h).

(** [c.layout_] *)
Definition layout_ (c : cloud) : py (list entry) := fun h =>
  match h !! c with
  | Some l => (Return l, h)
  | None => (Raise AttributeError, h)
  end.

(** [c.layout_[i] = newitem], on the list object itself. *)
Definition setitem (c : cloud) (i : nat) (newitem : entry) : py unit := fun h =>
  match h !! c with
  | Some l =>
      if (i <? length l)%nat then (Return tt, <[c := <[i := newitem]> l]> h)
      else (Raise IndexError, h)
  | None => (Raise AttributeError, h)
  end.

(** [for i, item in enumerate(c.layout_)], at most [n] more iterations from
    index [i]: the iterator reads the list as it is when it gets to [i] and
    stops past its end. *)
Fixpoint for_enumerate_from (n : nat) (c : cloud) (i : nat)
    (body : nat -> entry -> py unit) : py unit :=
  match n with
  | O => mret tt
  | S n' =>
      l ← layout_ c;
      match l !! i with
      | Some item => body i item;; for_enumerate_from n' c (S i) body
      | None => mret tt
      end
  end.

(** The whole loop.  Its bodies below replace items and never resize the
    list, so the iterator stops after as many iterations as the list has
    items at the start. *)
Definition for_enumerate (c : cloud) (body : nat -> entry -> py unit) : py unit :=
  l ← layout_ c; for_enumerate_from (length l) c 0 body.

(** The comprehension [{i[0][0]: val(i) for i in layout}]: a later item
    with the same word overwrites an earlier one. *)
Definition dict_of {V : Type} (val : entry -> V) (layout : list entry) : gmap string V :=
  foldl (fun d i => <[word i := val i]> d) ∅ layout.

(** [d.get(key, dflt)] *)
Definition get {V : Type} (d : gmap string V) (key : string) (dflt : V) : V :=
  default dflt (d !! key).

Section Transfer.
Variables (ref_cloud_fs : gmap string pynum).
Variables (ref_cloud_unknown ref_cloud_pos ref_cloud_or ref_cloud_col : gmap string pyobj).
Variables (transfer_fontsize transfer_pos transfer_orientation transfer_color
           transfer_unk : bool).

(** The item that an iteration of the loop of [transfer_stats_between_wc]
    builds from [item]. *)
Definition transfer_item (item : entry) : entry :=
  let word := word item in
  let fs := if transfer_fontsize then get ref_cloud_fs word (NumInt 0) else fs item in
  let unk := if transfer_unk then get ref_cloud_unknown word (PyInt 0) else unk item in
  let pos := if transfer_pos then get ref_cloud_pos word (PyTuple [PyInt 0; PyInt 0])
             else pos item in
  let or_ := if transfer_orientation then get ref_cloud_or word (PyInt 0) else or_ item in
  let col := if transfer_color then get ref_cloud_col word (PyInt 0) else col item in
  let newitem := Entry word unk fs pos or_ col in
  newitem.

Definition transfer_body (target_cloud : cloud) (i : nat) (item : entry) : py unit :=
  setitem target_cloud i (transfer_item item).

End Transfer.

(** [transfer_stats_between_wc]; the flags come in the order of the Python
    signature and default to [False] there. *)
Definition transfer_stats_between_wc (reference_cloud target_cloud : cloud)
    (transfer_fontsize transfer_pos transfer_orientation transfer_color transfer_unk : bool)
    : py cloud :=
  reference_layout ← layout_ reference_cloud;
  let ref_cloud_fs := dict_of fs reference_layout in
  let ref_cloud_unknown := dict_of unk reference_layout in
  let ref_cloud_pos := dict_of pos reference_layout in
  let ref_cloud_or := dict_of or_ reference_layout in
  let ref_cloud_col := dict_of col reference_layout in
  for_enumerate target_cloud
    (transfer_body ref_cloud_fs ref_cloud_unknown ref_cloud_pos ref_cloud_or ref_cloud_col
       transfer_fontsize transfer_pos transfer_orientation transfer_color transfer_unk
       target_cloud);;
  mret target_cloud.

(** The binary64 number nearest to an integer (ties to even); [inf] beyond
    the range of binary64. *)
Definition float_of_Z (z : Z) : float := SF2Prim (binary_normalize prec emax z 0 false).

(** The conversion of a Python [int] that meets a [float] or an
    [np.float64] in an arithmetic operation: the nearest binary64 number, and
    [OverflowError] for an integer that has none (from [2^1024 - 2^970]
    on). *)
Definition float_of_int (z : Z) : pyresult float :=
  let f := float_of_Z z in
  if is_infinity f then Raise OverflowError else Return f.

(** [a / b] on Python integers: the binary64 number nearest to the exact
    quotient (ties to even), signed zero included; [ZeroDivisionError] for a
    zero divisor and [OverflowError] for a quotient beyond the range.  The
    quotient is taken with three bits or more below the last place, the lowest
    of which tells whether anything is left, and is rounded once. *)
Definition int_true_divide (a b : Z) : pyresult float :=
  if b =? 0 then Raise ZeroDivisionError
  else
    let negate := xorb (a <? 0) (b <? 0) in
    if a =? 0 then Return (if negate then (-0)%float else 0%float)
    else
      let shift := Z.max 0 (Z.log2 (Z.abs b) - Z.log2 (Z.abs a) + 55) in
      let q := (Z.abs a * 2 ^ shift) / Z.abs b in
      let sticky := if (Z.abs a * 2 ^ shift) mod Z.abs b =? 0 then 0 else 1 in
      let m := 2 * q + sticky in
      let f := SF2Prim (binary_normalize prec emax (if negate then - m else m)
                          (- shift - 1) false) in
      if is_infinity f then Raise OverflowError else Return f.

(** [x * n] for a Python integer [n]: exact on integers; a [float] and an
    [np.float64] convert [n] and keep their type. *)
Definition mul_int (x : pynum) (n : Z) : pyresult pynum :=
  match x with
  | NumInt z => Return (NumInt (z * n))
  | NumFloat f => n' ← float_of_int n; Return (NumFloat (f * n'))
  | NumFloat64 f => n' ← float_of_int n; Return (NumFloat64 (f * n'))
  end.

(** [x / n] for a Python integer [n]: true division on integers; a [float]
    raises on a zero divisor, an [np.float64] gives [inf] or [nan] (with a
    warning). *)
Definition div_int (x : pynum) (n : Z) : pyresult pynum :=
  match x with
  | NumInt z => q ← int_true_divide z n; Return (NumFloat q)
  | NumFloat f =>
      n' ← float_of_int n;
      if n =? 0 then Raise ZeroDivisionError else Return (NumFloat (f / n'))
  | NumFloat64 f => n' ← float_of_int n; Return (NumFloat64 (f / n'))
  end.

(** [x * l] for an [np.float64] [l]: the product is an [np.float64]. *)
Definition mul_float64 (x : pynum) (l : float) : pyresult float :=
  match x with
  | NumInt z => z' ← float_of_int z; Return (z' * l)%float
  | NumFloat f => Return (f * l)%float
  | NumFloat64 f => Return (f * l)%float
  end.

(** The binary64 value of a number, where it has one. *)
Definition to_float (x : pynum) : float :=
  match x with
  | NumInt z => float_of_Z z
  | NumFloat f => f
  | NumFloat64 f => f
  end.

(** A number that has a binary64 value: every float, and the integers that
    convert. *)
Definition has_float (x : pynum) : bool :=
  match x with
  | NumInt z => negb (is_infinity (float_of_Z z))
  | _ => true
  end.

(** The integers that numpy takes as [int64] or [uint64]. *)
Definition is_int64_or_uint64 (n : Z) : bool := (- 2 ^ 63 <=? n) && (n <? 2 ^ 64).

(** [newitem = list(item)] then [newitem[1] = scaled_fs]: the item with
    another font size (as a list, which the record does not tell from a
    tuple). *)
Definition set_fs (item : entry) (scaled_fs : pynum) : entry :=
  Entry (word item) (unk item) scaled_fs (pos item) (or_ item) (col item).

Section Scale.
(** [np.log10] on the integers that numpy takes as [int64] or [uint64], a
    function of numpy that is not part of the repository: any function to
    binary64 ([-inf] at 0 and [nan] below come with a warning, not an
    exception). *)
Variable np_log10 : Z -> float.

(** [np.log10(n)] for a Python integer [n]: any other integer becomes an
    array of objects, on which the function raises [TypeError]. *)
Definition log10_int (n : Z) : pyresult float :=
  if is_int64_or_uint64 n then Return (np_log10 n) else Raise TypeError.

(** [x * target_wordcount / reference_wordcount], from left to right. *)
Definition linear_scale (x : pynum) (target_wordcount reference_wordcount : Z)
    : pyresult pynum :=
  product ← mul_int x target_wordcount;
  div_int product reference_wordcount.

(** [x * np.log10(target_wordcount) / np.log10(reference_wordcount)], from
    left to right: the first logarithm, the product, the second logarithm,
    the quotient, all in binary64. *)
Definition log_scale (x : pynum) (target_wordcount reference_wordcount : Z)
    : pyresult pynum :=
  log_target ← log10_int target_wordcount;
  product ← mul_float64 x log_target;
  log_reference ← log10_int reference_wordcount;
  Return (NumFloat64 (product / log_reference)).

(** The value of [scaled_fs] when the body of the loop gets to
    [newitem[1] = scaled_fs]: the three modes exclude one another, and with
    any other mode the name is unbound. *)
Definition scaled_font_size (ref_cloud_fs : gmap string pynum) (word : string)
    (target_wordcount reference_wordcount : Z) (scale_type : string) : pyresult pynum :=
  if String.eqb scale_type "linear" then
    linear_scale (get ref_cloud_fs word (NumInt 1)) target_wordcount reference_wordcount
  else if String.eqb scale_type "log" then
    log_scale (get ref_cloud_fs word (NumInt 1)) target_wordcount reference_wordcount
  else if String.eqb scale_type "logistic" then Raise AssertionError
  else Raise UnboundLocalError.

Definition scale_body (ref_cloud_fs : gmap string pynum)
    (target_wordcount reference_wordcount : Z) (scale_type : string)
    (target_cloud : cloud) (i : nat) (item : entry) : py unit :=
  let word := word item in
  scaled_fs ← lift (scaled_font_size ref_cloud_fs word target_wordcount reference_wordcount
                      scale_type);
  let newitem := set_fs item scaled_fs in
  setitem target_cloud i newitem.

(** [scale_wordcloud] *)
Definition scale_wordcloud (target_cloud reference_cloud : cloud)
    (target_wordcount reference_wordcount : Z) (scale_type : string) : py cloud :=
  target_cloud ← transfer_stats_between_wc reference_cloud target_cloud
                   false true true true true;
  reference_layout ← layout_ reference_cloud;
  let ref_cloud_fs := dict_of fs reference_layout in
  for_enumerate target_cloud
    (scale_body ref_cloud_fs target_wordcount reference_wordcount scale_type target_cloud);;
  mret target_cloud.

End Scale.

(** *** Notions of the specification *)

(** The entry of [reference] for [w]: the entry with that word, the last
    one should the word occur more than once. *)
Definition reference_entry (reference : list entry) (w : string) : option entry :=
  last (filter (fun r => word r = w) reference).

(** The documented defaults: [0], and [(0, 0)] for the position. *)
Definition default_entry (w : string) : entry :=
  Entry w (PyInt 0) (NumInt 0) (PyTuple [PyInt 0; PyInt 0]) (PyInt 0) (PyInt 0).

(** An entry with the word of [own] that takes each flagged attribute from
    [src] and each other attribute from [own]. *)
Definition select (transfer_fontsize transfer_pos transfer_orientation transfer_color
                   transfer_unk : bool) (src own : entry) : entry :=
  Entry (word own)
    (if transfer_unk then unk src else unk own)
    (if transfer_fontsize then fs src else fs own)
    (if transfer_pos then pos src else pos own)
    (if transfer_orientation then or_ src else or_ own)
    (if transfer_color then col src else col own).

(** The source of the flagged attributes for a word: the reference's entry
    for it, or the defaults. *)
Definition source_for (reference : list entry) (w : string) : entry :=
  match reference_entry reference w with
  | Some r => r
  | None => default_entry w
  end.

(** The reference font size for a word: that of the reference's entry for
    it, or [1]. *)
Definition reference_font_size (reference : list entry) (w : string) : pynum :=
  match reference_entry reference w with
  | Some r => fs r
  | None => NumInt 1
  end.

(** What the transfer inside [scale_wordcloud] makes of an item: position,
    orientation, colour and the unknown field from the reference or the
    defaults, the font size its own. *)
Definition moved (reference : list entry) (item : entry) : entry :=
  select false true true true true (source_for reference (word item)) item.

(** The item that an iteration of the loop of [scale_wordcloud] builds from
    [item], or the exception that ends the iteration before the
    assignment. *)
Definition scale_item (np_log10 : Z -> float) (ref_cloud_fs : gmap string pynum)
    (target_wordcount reference_wordcount : Z) (scale_type : string) (item : entry)
    : pyresult entry :=
  scaled_fs ← scaled_font_size np_log10 ref_cloud_fs (word item)
                target_wordcount reference_wordcount scale_type;
  Return (set_fs item scaled_fs).

(** What at most [n] iterations make of the items [l] when an iteration
    replaces its item [x] by [g x] and the first exception ends the loop:
    the outcome and the list left behind. *)
Fixpoint run_items (n : nat) (g : entry -> pyresult entry) (l : list entry)
    : pyresult unit * list entry :=
  match n, l with
  | S n', x :: l' =>
      match g x with
      | Return y => (fst (run_items n' g l'), y :: snd (run_items n' g l'))
      | Raise e => (Raise e, x :: l')
      end
  | _, _ => (Return tt, l)
  end.

(** The reference and the target of the examples, at addresses 1 and 2. *)
Definition sample_reference : list entry :=
  [ Entry "a" (PyFloat 1) (NumInt 10) (PyTuple [PyInt 1; PyInt 1]) PyNone (PyStr "red");
    Entry "b" (PyFloat 0.5) (NumInt 5) (PyTuple [PyInt 2; PyInt 2]) PyNone (PyStr "blue") ].

Definition sample_target : list entry :=
  [ Entry "a" (PyFloat 1) (NumInt 8) (PyTuple [PyInt 9; PyInt 9]) (PyInt 2) (PyStr "green");
    Entry "c" (PyFloat 0.25) (NumInt 3) (PyTuple [PyInt 5; PyInt 5]) PyNone (PyStr "black") ].

Definition sample_heap : heap := <[1%positive := sample_reference]> {[2%positive := sample_target]}.

(** The font sizes of the layout of [c], in order. *)
Definition font_sizes (h : heap) (c : cloud) : option (list pynum) :=
  match h !! c with
  | Some l => Some (fs <$> l)
  | None => None
  end.

(** [np.log10] at the arguments the examples use: exact at 1 and at powers
    of ten, and at 11 the value numpy gives, which is also the binary64
    number nearest to the logarithm; [nan] stands at the arguments that no
    example uses. *)
Definition log10_sample (x : Z) : float :=
  if x =? 1 then 0%float
  else if x =? 10 then 1%float
  else if x =? 100 then 2%float
  else if x =? 11 then 0x1.0a98b6050c56fp+0%float
  else nan.

End Cloud.

(** ** The rest of [collate_pages.py]:
       [__arrange_pages_vertical], [collate_pdf_by_sha], [collate_all],
       [find_maximum_number_pages] *)

Module Collate.
Import Canvas.

(** [__arrange_pages_vertical].  The names [t_bpage_w] and [t_bpage_h] are
    the source's: the first is the number of rows of the bordered page and
    the second its number of columns. *)
Definition __arrange_pages_vertical (pages : list ndarray) (num_rows num_cols : nat)
    (background_color : pixel) : pyresult ndarray :=
  test_page ← match pages with
              | [] => Raise IndexError
              | p :: _ => Return p
              end;
  t_bpage ← add_border test_page 1;
  let '(t_bpage_w, t_bpage_h) := shape t_bpage in
  let canvas := np_zeros (num_cols * t_bpage_w) (num_rows * t_bpage_h) in
  let ideal_num_pages := (num_rows * num_cols)%nat in
  let extra_required_pages := Z.of_nat ideal_num_pages - Z.of_nat (length pages) in
  let pages := (Some <$> pages) ++ replicate (Z.to_nat extra_required_pages) None in
  arr_pages ← reshape pages num_rows num_cols;
  for_range num_rows 0 (fun i canvas =>
    for_range num_cols 0 (fun j canvas =>
      bpage ← match arr_pages !! (i * num_cols + j)%nat with
              | Some (Some page) => add_border page 1
              | Some None => Return (np_full t_bpage_w t_bpage_h background_color)
              | None => Raise IndexError
              end;
      setitem_slice astype_uint8 canvas
        (j * t_bpage_w) ((j + 1) * t_bpage_w)
        (i * t_bpage_h) ((i + 1) * t_bpage_h) bpage) canvas) canvas.

(** A page file: the stem of its path and the image that
    [imageio.imread] reads there. *)
Abbreviation page_file := (string * ndarray)%type.

(** [list.sort(key=lambda x: x.stem)]: Python's sort is stable, so its
    result is that of any stable sort; this one inserts each file before the
    first file of the sorted rest whose stem is not smaller.  Stems compare
    as Python strings do, character by character ([String.leb] compares the
    bytes, which orders UTF-8 text by code point). *)
Fixpoint insert_by_stem (x : page_file) (l : list page_file) : list page_file :=
  match l with
  | [] => [x]
  | y :: l' => if String.leb (fst x) (fst y) then x :: l else y :: insert_by_stem x l'
  end.

Definition sort_by_stem (l : list page_file) : list page_file :=
  foldr insert_by_stem [] l.

(** The order that the sort is to establish. *)
Definition stem_leb (a b : page_file) : Prop := String.leb (fst a) (fst b) = true.

(** The two directories: under [pdf_pages_path], for a commit, the files
    that [glob("*png")] lists, in the order it lists them (none when the
    directory of the commit is missing); under [collated_pdfs_path], the
    image saved as [sha + ".png"]. *)
Abbreviation pages_dir := (gmap string (list page_file)).
Abbreviation collated_dir := (gmap string ndarray).

(** [collate_pdf_by_sha]: the outcome and the directory of collated images
    after the call.  [imageio.imsave] stores the canvas, which a PNG file
    holds as it is. *)
Definition collate_pdf_by_sha (pdf_pages : pages_dir) (sha : string) (rows cols : nat)
    (collated : collated_dir) : pyresult unit * collated_dir :=
  let list_of_images := default [] (pdf_pages !! sha) in
  let list_of_images := sort_by_stem list_of_images in
  if (length list_of_images <=? rows * cols)%nat then
    match arrange_pages_horizontal (snd <$> list_of_images) rows cols (200, 200, 200) with
    | Return canvas => (Return tt, <[sha := canvas]> collated)
    | Raise e => (Raise e, collated)
    end
  else (Raise AssertionError, collated).

(** [collate_all], for the commits that [load_commit_list] gives, each by
    its [sha]. *)
Fixpoint collate_all (pdf_pages : pages_dir) (commits : list string)
    (collated : collated_dir) : pyresult unit * collated_dir :=
  match commits with
  | [] => (Return tt, collated)
  | sha :: commits' =>
      match collated !! sha with
      | Some _ => collate_all pdf_pages commits' collated
      | None =>
          match collate_pdf_by_sha pdf_pages sha 8 12 collated with
          | (Return _, collated') => collate_all pdf_pages commits' collated'
          | (Raise e, collated') => (Raise e, collated')
          end
      end
  end.

(** A Python [dict] with string keys: the items in insertion order.
    [d[k] = v] replaces the value where the key stands, or adds the item at
    the end. *)
Fixpoint dict_set {V : Type} (k : string) (v : V) (d : list (string * V))
    : list (string * V) :=
  match d with
  | [] => [(k, v)]
  | (k', v') :: d' => if String.eqb k k' then (k, v) :: d' else (k', v') :: dict_set k v d'
  end.

(** [{folder.stem: len(list(folder.glob("*png"))) for folder in folders}],
    a folder being given by its stem and the number of its page files. *)
Definition number_of_images (folders : list (string * nat)) : list (string * nat) :=
  foldl (fun d folder => dict_set (fst folder) (snd folder) d) [] folders.

(** [max(values)], which raises [ValueError] on no value. *)
Definition py_max (values : list nat) : pyresult nat :=
  match values with
  | [] => Raise ValueError
  | v :: values' => Return (foldl Nat.max v values')
  end.

Definition newline : string := String (Ascii.ascii_of_nat 10) EmptyString.

(** The text of [number_of_pages.txt]. *)
Definition number_of_pages_txt (d : list (string * nat)) : string :=
  foldl (fun text item => text +:+ fst item +:+ ";" +:+ pretty (snd item) +:+ newline)
    ("sha;pages" +:+ newline) d.

(** [find_maximum_number_pages]: the outcome, and the text written to
    [number_of_pages.txt] when [save] is set. *)
Definition find_maximum_number_pages (folders : list (string * nat)) (save : bool)
    : pyresult nat * option string :=
  let number_of_images := number_of_images folders in
  let written := if save then Some (number_of_pages_txt number_of_images) else None in
  (py_max (snd <$> number_of_images), written).

End Collate.

(** * Properties *)

(** ** GridShapeSelector *)

Module ShapeSpec.
Import Shape.

(** The base shape: three A4 widths in 780 units, two A4 heights in 668. *)
Lemma base_shape : num_a4_on_rows = 3 /\ num_a4_on_cols = 2.
Proof. split; reflexivity. Qed.

Lemma grow_fst_snd i a :
  (fst a <= fst (grow i a) <= fst a + 1) /\
  (snd a <= snd (grow i a) <= snd a + 1) /\
  fst (grow i a) + snd (grow i a) = fst a + snd a + 1.
Proof. unfold grow. destruct (i mod 2 =? 0); simpl; lia. Qed.

(** Rows are incremented on even steps and columns on odd ones: after [k]
    steps from [(0, 0)] the adders are [(ceil (k/2), floor (k/2))]. *)
Lemma grow_all_from i a (n : nat) :
  0 <= i ->
  grow_all n i a =
    (fst a + (Z.of_nat n + (1 - i mod 2)) / 2, snd a + (Z.of_nat n + i mod 2) / 2).
Proof.
  revert i a. induction n as [|n IH]; intros i a Hi.
  - cbn [grow_all]. change (Z.of_nat 0) with 0.
    assert (Hm : 0 <= i mod 2 < 2) by (apply Z.mod_pos_bound; lia).
    destruct a as [r c]. cbn [fst snd].
    assert (i mod 2 = 0 \/ i mod 2 = 1) as [-> | ->] by lia.
    + change ((0 + (1 - 0)) / 2) with 0. change ((0 + 0) / 2) with 0. f_equal; lia.
    + change ((0 + (1 - 1)) / 2) with 0. change ((0 + 1) / 2) with 0. f_equal; lia.
  - cbn [grow_all]. rewrite IH by lia.
    assert (Hm : 0 <= i mod 2 < 2) by (apply Z.mod_pos_bound; lia).
    assert (Hs : (i + 1) mod 2 = 1 - i mod 2).
    { rewrite Z.add_mod by lia. assert (i mod 2 = 0 \/ i mod 2 = 1) as [-> | ->] by lia; reflexivity. }
    rewrite Hs. unfold grow.
    assert (i mod 2 = 0 \/ i mod 2 = 1) as [E | E] by lia; rewrite E; cbn [Z.eqb fst snd];
      f_equal.
    + replace (Z.of_nat (S n) + (1 - 0)) with (Z.of_nat n + (1 - (1 - 0)) + 1 * 2) by lia.
      rewrite Z.div_add by lia. lia.
    + replace (Z.of_nat (S n) + 0) with (Z.of_nat n + (1 - 0)) by lia. reflexivity.
    + replace (Z.of_nat (S n) + (1 - 1)) with (Z.of_nat n + (1 - (1 - 1))) by lia. reflexivity.
    + replace (Z.of_nat (S n) + 1) with (Z.of_nat n + (1 - 1) + 1 * 2) by lia.
      rewrite Z.div_add by lia. lia.
Qed.

Lemma grow_all_closed_form (k : nat) :
  grow_all k 0 (0, 0) = ((Z.of_nat k + 1) / 2, Z.of_nat k / 2).
Proof.
  rewrite grow_all_from by lia. cbn [fst snd].
  change (0 mod 2) with 0. rewrite !Z.add_0_l, Z.add_0_r.
  replace (1 - 0) with 1 by lia. reflexivity.
Qed.

Lemma grow_all_S n i a : grow_all (S n) i a = grow_all n (i + 1) (grow i a).
Proof. reflexivity. Qed.

(** What the loop returns: the adders after some number [k >= 1] of steps
    (none when the range is empty), the first whose shape has room for
    [size], or those after the whole range when no step finds room. *)
Lemma shape_loop_spec n i a size :
  exists k : nat,
    (k <= n)%nat /\ (n <> O -> k <> O) /\
    shape_loop n i a size = grow_all k i a /\
    (forall j : nat, (1 <= j < k)%nat -> capacity (shape_of (grow_all j i a)) < size) /\
    ((k < n)%nat -> size <= capacity (shape_of (grow_all k i a))) /\
    (k = n -> capacity (shape_of (grow_all k i a)) < size ->
       forall j : nat, (1 <= j <= n)%nat -> capacity (shape_of (grow_all j i a)) < size).
Proof.
  revert i a. induction n as [|n IH]; intros i a.
  - exists O. cbn. split; [lia|]. split; [congruence|]. split; [reflexivity|].
    split; [intros; lia|]. split; intros; lia.
  - cbn [shape_loop].
    destruct (Z.geb_spec (capacity (shape_of (grow i a))) size) as [E|E].
    + exists 1%nat. cbn [grow_all].
      split; [lia|]. split; [congruence|]. split; [reflexivity|].
      split; [intros; lia|]. split; intros; lia.
    + destruct (IH (i + 1) (grow i a)) as (k & Hk & Hk0 & Heq & Hbefore & Hroom & Hall).
      destruct n as [|n].
      * exists 1%nat. assert (k = O) by lia. subst k. cbn in *.
        split; [lia|]. split; [congruence|]. split; [reflexivity|].
        split; [intros; lia|]. split; [intros; lia|].
        intros _ _ j Hj. assert (j = 1%nat) by lia. subst j. exact E.
      * exists (S k).
        split; [lia|]. split; [congruence|]. split; [rewrite Heq; reflexivity|].
        split; [|split].
        -- intros j Hj. destruct j as [|[|j]]; [lia | exact E |].
           rewrite grow_all_S. apply Hbefore. lia.
        -- intros Hkn. rewrite grow_all_S. apply Hroom. lia.
        -- intros Hkn Hcap j Hj. destruct j as [|[|j]]; [lia | exact E |].
           rewrite grow_all_S. apply Hall; try lia.
           rewrite <- grow_all_S. exact Hcap.
Qed.

Lemma determine_ideal_shape_eq size :
  determine_ideal_shape size = Return (shape_of (shape_loop 100 0 (0, 0) size)).
Proof. reflexivity. Qed.

(** The shape after the 100th step is 53 by 52, with 2756 cells. *)
Lemma shape_after_range :
  shape_of (grow_all 100 0 (0, 0)) = (53, 52) /\ capacity (53, 52) = 2756.
Proof. split; reflexivity. Qed.

Lemma capacity_shape_mono a b :
  0 <= fst a <= fst b -> 0 <= snd a <= snd b ->
  capacity (shape_of a) <= capacity (shape_of b).
Proof.
  intros Hr Hc. unfold capacity, shape_of. cbn [fst snd].
  destruct base_shape as [-> ->]. nia.
Qed.

Lemma grow_all_ge n i a :
  fst a <= fst (grow_all n i a) /\ snd a <= snd (grow_all n i a).
Proof.
  revert i a. induction n as [|n IH]; intros i a; cbn [grow_all]; [lia|].
  specialize (IH (i + 1) (grow i a)). pose proof (grow_fst_snd i a). lia.
Qed.

Lemma shape_loop_ge n i a size :
  fst a <= fst (shape_loop n i a size) /\ snd a <= snd (shape_loop n i a size).
Proof.
  destruct (shape_loop_spec n i a size) as (k & _ & _ & -> & _). apply grow_all_ge.
Qed.

(** More tiles never give a smaller grid, from any state of the loop. *)
Lemma shape_loop_mono n i a m k :
  m <= k -> 0 <= fst a -> 0 <= snd a ->
  capacity (shape_of (shape_loop n i a m)) <= capacity (shape_of (shape_loop n i a k)).
Proof.
  intros Hmk. revert i a. induction n as [|n IH]; intros i a Hr Hc; cbn [shape_loop]; [lia|].
  pose proof (grow_fst_snd i a) as Hg.
  destruct (Z.geb_spec (capacity (shape_of (grow i a))) k) as [Ek|Ek];
    destruct (Z.geb_spec (capacity (shape_of (grow i a))) m) as [Em|Em]; try lia.
  - pose proof (shape_loop_ge n (i + 1) (grow i a) k).
    apply capacity_shape_mono; lia.
  - apply IH; lia.
Qed.

Lemma reached_within_false n size :
  reached_within n size = false ->
  forall j : nat, (1 <= j <= n)%nat -> capacity (shape_of (grow_all j 0 (0, 0))) < size.
Proof.
  unfold reached_within. intros H j Hj.
  destruct (Z.geb_spec (capacity (shape_of (grow_all j 0 (0, 0)))) size) as [E|E]; [|lia].
  exfalso. assert (Ht : existsb (fun k => capacity (shape_of (grow_all k 0 (0, 0))) >=? size)
                          (seq 1 n) = true).
  { apply existsb_exists. exists j. split; [apply in_seq; lia | apply Z.geb_le; lia]. }
  congruence.
Qed.

(** C4 fails in the code: with 2757 tiles the loop runs out of steps and the
    function returns the 53 by 52 shape, which has 2756 cells, against its
    own comment (rows and columns are added until the canvas fits the pages)
    and against the assertion of [collate_pdf_by_sha]. *)
Lemma C4_counterexample :
  determine_ideal_shape 2757 = Return (53, 52) /\ capacity (53, 52) < 2757.
Proof. split; [vm_compute; reflexivity | vm_compute; reflexivity]. Qed.

(** C4, within the reach of the loop: for every tile count up to 2756, the
    capacity of the shape reached by the 100th growth step,
    [determine_ideal_shape] returns a [(rows, cols)] pair with
    [rows * cols >= tileCount]. *)
Theorem C4_shape_has_room (size : Z) :
  size <= 2756 ->
  exists rows cols,
    determine_ideal_shape size = Return (rows, cols) /\ rows * cols >= size.
Proof.
  intros Hsize. rewrite determine_ideal_shape_eq.
  destruct (shape_loop_spec 100 0 (0, 0) size) as (k & Hk & _ & Heq & _ & Hroom & _).
  rewrite Heq. eexists _, _. split; [reflexivity|].
  change (capacity (shape_of (grow_all k 0 (0, 0))) >= size).
  destruct (Nat.eq_dec k 100%nat) as [->|Hne].
  - destruct shape_after_range as [-> ->]. lia.
  - specialize (Hroom ltac:(lia)). lia.
Qed.

Lemma C4_shape_has_room_witness :
  exists rows cols,
    determine_ideal_shape 17 = Return (rows, cols) /\ rows * cols >= 17.
Proof. apply (C4_shape_has_room 17). lia. Defined.

(** C5, as stated, fails: six tiles fit the base shape, three by two, and
    the function returns four by two all the same. *)
Lemma C5_counterexample :
  num_a4_on_rows * num_a4_on_cols >= 6 /\
  determine_ideal_shape 6 = Return (4, 2) /\
  (4, 2) <> (num_a4_on_rows, num_a4_on_cols).
Proof. split; [vm_compute; discriminate | split; [reflexivity | discriminate]]. Qed.

(** C5 (amended): [determine_ideal_shape] always takes at least one growth
    step, the first capacity check coming after the first increment: it
    returns the shape after [k] steps for some [1 <= k <= 100], rows being
    incremented on even steps and columns on odd ones ([k] steps add
    [ceil (k/2)] rows and [floor (k/2)] columns), every shape before the
    [k]-th being too small, and the [k]-th having room unless [k = 100]; so
    when the base shape already has room the result is
    [(baseRows + 1, baseCols)]. *)
Theorem C5_grows_at_least_once (size : Z) :
  (exists k : nat,
     (1 <= k <= 100)%nat /\
     determine_ideal_shape size =
       Return (num_a4_on_rows + (Z.of_nat k + 1) / 2, num_a4_on_cols + Z.of_nat k / 2) /\
     (forall j : nat, (1 <= j < k)%nat ->
        (num_a4_on_rows + (Z.of_nat j + 1) / 2) * (num_a4_on_cols + Z.of_nat j / 2) < size) /\
     ((k < 100)%nat ->
        size <= (num_a4_on_rows + (Z.of_nat k + 1) / 2) * (num_a4_on_cols + Z.of_nat k / 2))) /\
  (num_a4_on_rows * num_a4_on_cols >= size ->
     determine_ideal_shape size = Return (num_a4_on_rows + 1, num_a4_on_cols)).
Proof.
  split.
  - rewrite determine_ideal_shape_eq.
    destruct (shape_loop_spec 100 0 (0, 0) size) as (k & Hk & Hk0 & Heq & Hbefore & Hroom & _).
    exists k. split; [specialize (Hk0 ltac:(lia)); lia|].
    rewrite Heq, grow_all_closed_form. split; [reflexivity|]. split.
    + intros j Hj. specialize (Hbefore j Hj). rewrite grow_all_closed_form in Hbefore.
      exact Hbefore.
    + intros Hlt. specialize (Hroom Hlt). rewrite grow_all_closed_form in Hroom. exact Hroom.
  - intros Hbase. rewrite determine_ideal_shape_eq.
    change 100%nat with (S 99). cbn [shape_loop].
    destruct (Z.geb_spec (capacity (shape_of (grow 0 (0, 0)))) size) as [E|E]; [reflexivity|].
    exfalso. revert E Hbase. destruct base_shape as [-> ->]. vm_compute capacity. lia.
Qed.

(** C6, as stated, fails: 2757 tiles are out of reach of the 100 steps, and
    the call returns a shape; nothing is raised. *)
Lemma C6_counterexample :
  reached_within 100 2757 = false /\
  determine_ideal_shape 2757 = Return (53, 52).
Proof. split; vm_compute; reflexivity. Qed.

(** C6 (amended): [determine_ideal_shape] has no failure of its own: for
    every tile count for which the 100 alternating growth steps reach no
    shape with [rows * cols >= tileCount], the loop takes all the steps of
    its range, none of them breaking, and the call then returns; no
    exception is raised. *)
Theorem C6_out_of_reach_returns (size : Z) :
  reached_within 100 size = false ->
  shape_loop 100 0 (0, 0) size = grow_all 100 0 (0, 0) /\
  (exists shape, determine_ideal_shape size = Return shape) /\
  (forall e, determine_ideal_shape size <> Raise e).
Proof.
  intros H. pose proof (reached_within_false _ _ H) as Hall.
  split; [|rewrite determine_ideal_shape_eq; split; [eexists; reflexivity | discriminate]].
  destruct (shape_loop_spec 100 0 (0, 0) size) as (k & Hk & Hk0 & Heq & _ & Hroom & _).
  destruct (Nat.eq_dec k 100%nat) as [->|Hne]; [exact Heq|].
  exfalso. specialize (Hroom ltac:(lia)). specialize (Hk0 ltac:(lia)).
  specialize (Hall k ltac:(lia)). lia.
Qed.

Lemma C6_out_of_reach_returns_witness :
  shape_loop 100 0 (0, 0) 3000 = grow_all 100 0 (0, 0) /\
  (exists shape, determine_ideal_shape 3000 = Return shape) /\
  (forall e, determine_ideal_shape 3000 <> Raise e).
Proof. apply (C6_out_of_reach_returns 3000). vm_compute. reflexivity. Defined.

(** C9: the capacity of the selected shape is monotone in the tile count. *)
Theorem C9_capacity_monotone (m n : Z) :
  m <= n ->
  exists s1 s2,
    determine_ideal_shape m = Return s1 /\
    determine_ideal_shape n = Return s2 /\
    capacity s1 <= capacity s2.
Proof.
  intros Hmn. eexists _, _. rewrite !determine_ideal_shape_eq.
  split; [reflexivity|]. split; [reflexivity|].
  apply shape_loop_mono; cbn; lia.
Qed.

Lemma C9_capacity_monotone_witness :
  exists s1 s2,
    determine_ideal_shape 9 = Return s1 /\
    determine_ideal_shape 17 = Return s2 /\
    capacity s1 <= capacity s2.
Proof. apply (C9_capacity_monotone 9 17). lia. Defined.

End ShapeSpec.

(** ** TileCanvas *)

Module CanvasSpec.
Import Canvas.

Ltac nat_cases :=
  repeat match goal with
  | |- context [(?a <=? ?b)%nat] => destruct (Nat.leb_spec a b)
  | |- context [(?a <? ?b)%nat] => destruct (Nat.ltb_spec a b)
  | |- context [(?a =? ?b)%nat] => destruct (Nat.eqb_spec a b)
  end; cbn [andb orb].

Lemma astype_uint8_id p : is_uint8 p -> astype_uint8 p = p.
Proof.
  destruct p as [[r g] b]. cbn. intros (Hr & Hg & Hb).
  rewrite !Z.mod_small by lia. reflexivity.
Qed.

(** Assigning a source of the slice's own shape, neither dimension being
    one, to a slice that lies inside the array. *)
Lemma setitem_slice_inside cast a r0 r1 c0 c1 src :
  (r0 <= r1 <= height a)%nat -> (c0 <= c1 <= width a)%nat ->
  height src = (r1 - r0)%nat -> width src = (c1 - c0)%nat ->
  height src <> 1%nat -> width src <> 1%nat ->
  setitem_slice cast a r0 r1 c0 c1 src =
    Return (NdArray (height a) (width a) (fun y x =>
      if (r0 <=? y)%nat && (y <? r1)%nat && (c0 <=? x)%nat && (x <? c1)%nat
      then cast (data src (y - r0)%nat (x - c0)%nat)
      else data a y x)).
Proof.
  intros Hr Hc Hh Hw Hh1 Hw1. unfold setitem_slice, slice_bounds, src_index, broadcasts.
  rewrite !Nat.min_l by lia. rewrite Hh, Hw, !Nat.eqb_refl. cbn [orb andb].
  rewrite <- Hh, <- Hw.
  destruct (Nat.eqb_spec (height src) 1); [contradiction|].
  destruct (Nat.eqb_spec (width src) 1); [contradiction|]. reflexivity.
Qed.

(** [add_border_c] with a one-pixel border agrees with the bordered tile. *)
Lemma add_border_c_bordered tile color :
  exists b,
    add_border_c tile 1 color = Return b /\
    height b = (height tile + 2)%nat /\ width b = (width tile + 2)%nat /\
    forall y x,
      data b y x =
        if (1 <=? y)%nat && (y <=? height tile)%nat && (1 <=? x)%nat && (x <=? width tile)%nat
        then data tile (y - 1) (x - 1) else color.
Proof.
  unfold add_border_c, setitem_slice, slice_bounds, neg_stop, np_full, broadcasts.
  cbn [height width data Nat.eqb].
  replace (Nat.min 1 (height tile + 1 * 2)) with 1%nat by lia.
  replace (Nat.min (height tile + 1 * 2 - 1) (height tile + 1 * 2)) with (height tile + 1)%nat by lia.
  replace (Nat.min 1 (width tile + 1 * 2)) with 1%nat by lia.
  replace (Nat.min (width tile + 1 * 2 - 1) (width tile + 1 * 2)) with (width tile + 1)%nat by lia.
  replace (height tile + 1 - 1)%nat with (height tile) by lia.
  replace (width tile + 1 - 1)%nat with (width tile) by lia.
  rewrite !Nat.eqb_refl. cbn [orb andb].
  eexists. split; [reflexivity|]. cbn [height width data].
  split; [lia|]. split; [lia|]. intros y x. unfold src_index, id.
  nat_cases; try lia; try reflexivity; f_equal; lia.
Qed.
Lemma for_range_inv {A : Type} (P : nat -> A -> Prop) n start
    (body : nat -> A -> pyresult A) a :
  P start a ->
  (forall i a, (start <= i < start + n)%nat -> P i a ->
     exists a', body i a = Return a' /\ P (S i) a') ->
  exists a', for_range n start body a = Return a' /\ P (start + n)%nat a'.
Proof.
  revert start a. induction n as [|n IH]; intros start a Ha Hbody.
  - exists a. rewrite Nat.add_0_r. split; [reflexivity | exact Ha].
  - cbn [for_range]. destruct (Hbody start a ltac:(lia) Ha) as (a1 & -> & Ha1).
    cbn. destruct (IH (S start) a1 Ha1) as (a2 & Hrun & Ha2).
    { intros i b Hi Hb. apply Hbody; [lia | exact Hb]. }
    exists a2. split; [exact Hrun|]. replace (start + S n)%nat with (S start + n)%nat by lia.
    exact Ha2.
Qed.

Lemma add_border_shape image :
  exists t, add_border image 1 = Return t /\
    shape t = ((height image + 2)%nat, (width image + 2)%nat).
Proof.
  unfold add_border, setitem_slice, slice_bounds, neg_stop, np_zeros, broadcasts, shape.
  cbn [height width data Nat.eqb].
  replace (Nat.min 1 (height image + 1 * 2)) with 1%nat by lia.
  replace (Nat.min (height image + 1 * 2 - 1) (height image + 1 * 2)) with (height image + 1)%nat by lia.
  replace (Nat.min 1 (width image + 1 * 2)) with 1%nat by lia.
  replace (Nat.min (width image + 1 * 2 - 1) (width image + 1 * 2)) with (width image + 1)%nat by lia.
  replace (height image + 1 - 1)%nat with (height image) by lia.
  replace (width image + 1 - 1)%nat with (width image) by lia.
  rewrite !Nat.eqb_refl. cbn [orb andb].
  eexists. split; [reflexivity|]. cbn [height width]. f_equal; lia.
Qed.

Lemma bordered_uint8 tile y x :
  uint8_image tile -> is_uint8 (data (bordered tile) y x).
Proof.
  intros Htile. unfold bordered. cbn [data].
  destruct (Nat.leb_spec 1 y); destruct (Nat.leb_spec y (height tile));
    destruct (Nat.leb_spec 1 x); destruct (Nat.leb_spec x (width tile));
    cbn [andb]; try (cbn; lia).
  apply Htile; lia.
Qed.

Section Grid.
Variables (pages : list ndarray) (num_rows num_cols : nat) (background_color : pixel).
Variables h w : nat.
Hypothesis pages_shape : forall p, p ∈ pages -> shape p = (h, w).
Hypothesis pages_fit : (length pages <= num_rows * num_cols)%nat.

Let arr_pages : list (option ndarray) :=
  (Some <$> pages) ++
  replicate (Z.to_nat (Z.of_nat (num_rows * num_cols) - Z.of_nat (length pages))) None.

Lemma arr_pages_length : length arr_pages = (num_rows * num_cols)%nat.
Proof.
  unfold arr_pages. rewrite length_app, length_fmap, length_replicate. lia.
Qed.

Lemma arr_pages_lookup k :
  (k < num_rows * num_cols)%nat -> arr_pages !! k = Some (pages !! k).
Proof.
  intros Hk. unfold arr_pages. destruct (Nat.lt_ge_cases k (length pages)) as [Hlt|Hge].
  - rewrite lookup_app_l by (rewrite length_fmap; lia).
    rewrite list_lookup_fmap. destruct (lookup_lt_is_Some_2 pages k Hlt) as [p ->].
    reflexivity.
  - rewrite lookup_app_r by (rewrite length_fmap; lia).
    rewrite (lookup_ge_None_2 pages k Hge). rewrite lookup_replicate_2; [reflexivity|].
    rewrite length_fmap. lia.
Qed.

(** The page loaded for cell [k] is the image the cell is to show. *)
Lemma cell_bpage k :
  (k < num_rows * num_cols)%nat ->
  exists bpage,
    match arr_pages !! k with
    | Some (Some page) => add_border_c page 1 (0, 0, 0)
    | Some None => Return (np_full (h + 2) (w + 2) background_color)
    | None => Raise IndexError
    end = Return bpage /\
    height bpage = (h + 2)%nat /\ width bpage = (w + 2)%nat /\
    forall y x, data bpage y x = data (cell_image pages background_color h w k) y x.
Proof.
  intros Hk. rewrite (arr_pages_lookup k Hk). unfold cell_image.
  destruct (pages !! k) as [p|] eqn:Ep.
  - assert (Hp : shape p = (h, w)).
    { apply pages_shape. apply list_elem_of_lookup. eauto. }
    injection Hp as Hh Hw.
    destruct (add_border_c_bordered p (0, 0, 0)) as (b & Hb & Hbh & Hbw & Hdata).
    exists b. split; [exact Hb|]. split; [lia|]. split; [lia|].
    intros y x. rewrite Hdata. reflexivity.
  - eexists. split; [reflexivity|]. cbn. auto.
Qed.
Lemma cell_row (i j n : nat) : (j < n)%nat -> ((i * n + j) / n)%nat = i.
Proof.
  intros Hj. rewrite Nat.div_add_l by lia. rewrite Nat.div_small by lia. lia.
Qed.

Lemma cell_col (i j n : nat) : (j < n)%nat -> ((i * n + j) mod n)%nat = j.
Proof.
  intros Hj. rewrite Nat.add_comm, Nat.Div0.mod_add. apply Nat.mod_small. exact Hj.
Qed.

(** A point of cell [(i', j')] lies in the rectangle of cell [(i, j)] only
    when the cells are the same. *)
Lemma same_cell (H i i' y : nat) :
  (y < H)%nat -> (i * H <= i' * H + y)%nat -> (i' * H + y < (i + 1) * H)%nat -> i' = i.
Proof. intros Hy Hlo Hhi. nia. Qed.

(** One pass through the inner loop's body fills cell [(i, j)] and leaves
    the cells before it as they were. *)
Lemma cell_step i j canvas :
  (i < num_rows)%nat -> (j < num_cols)%nat ->
  shape canvas = ((num_rows * (h + 2))%nat, (num_cols * (w + 2))%nat) ->
  filled pages background_color h w num_cols canvas (i * num_cols + j) ->
  exists canvas',
    (bpage ← match arr_pages !! (i * num_cols + j)%nat with
             | Some (Some page) => add_border_c page 1 (0, 0, 0)
             | Some None => Return (np_full (h + 2) (w + 2) background_color)
             | None => Raise IndexError
             end;
     setitem_slice astype_uint8 canvas
       (i * (h + 2)) ((i + 1) * (h + 2)) (j * (w + 2)) ((j + 1) * (w + 2)) bpage)
    = Return canvas' /\
    shape canvas' = ((num_rows * (h + 2))%nat, (num_cols * (w + 2))%nat) /\
    filled pages background_color h w num_cols canvas' (i * num_cols + S j).
Proof.
  intros Hi Hj Hshape Hfilled. injection Hshape as Hch Hcw.
  assert (Hk : (i * num_cols + j < num_rows * num_cols)%nat) by nia.
  destruct (cell_bpage _ Hk) as (bpage & -> & Hbh & Hbw & Hdata).
  cbn [mbind pyresult_bind].
  rewrite setitem_slice_inside by nia.
  eexists. split; [reflexivity|]. split; [unfold shape; cbn [height width]; rewrite Hch, Hcw; reflexivity|].
  intros k y x Hklt Hy Hx. cbn [data].
  assert (Hcols : num_cols <> 0%nat) by lia.
  pose proof (Nat.div_mod_eq k num_cols) as Hdm.
  pose proof (Nat.mod_upper_bound k num_cols Hcols) as Hmod.
  destruct (Nat.eq_dec k (i * num_cols + j)%nat) as [->|Hne].
  - rewrite (cell_row i j num_cols Hj), (cell_col i j num_cols Hj).
    destruct (Nat.leb_spec (i * (h + 2)) (i * (h + 2) + y)); [|lia].
    destruct (Nat.ltb_spec (i * (h + 2) + y) ((i + 1) * (h + 2))); [|lia].
    destruct (Nat.leb_spec (j * (w + 2)) (j * (w + 2) + x)); [|lia].
    destruct (Nat.ltb_spec (j * (w + 2) + x) ((j + 1) * (w + 2))); [|lia].
    cbn [andb]. rewrite Hdata. do 2 f_equal; lia.
  - assert (Hout :
      (i * (h + 2) <=? k / num_cols * (h + 2) + y)%nat &&
      (k / num_cols * (h + 2) + y <? (i + 1) * (h + 2))%nat &&
      (j * (w + 2) <=? k mod num_cols * (w + 2) + x)%nat &&
      (k mod num_cols * (w + 2) + x <? (j + 1) * (w + 2))%nat = false).
    { apply not_true_is_false. intros Hin.
      apply andb_prop in Hin as [Hin H4]. apply andb_prop in Hin as [Hin H3].
      apply andb_prop in Hin as [H1 H2].
      apply Nat.leb_le in H1, H3. apply Nat.ltb_lt in H2, H4.
      pose proof (same_cell _ _ _ _ Hy H1 H2) as Ei.
      pose proof (same_cell _ _ _ _ Hx H3 H4) as Ej.
      apply Hne. rewrite Hdm at 1. rewrite Ei, Ej. lia. }
    rewrite Hout. apply Hfilled; [|assumption..].
    lia.
Qed.

(** The inner loop fills row [i]. *)
Lemma row_loop i canvas :
  (i < num_rows)%nat ->
  shape canvas = ((num_rows * (h + 2))%nat, (num_cols * (w + 2))%nat) ->
  filled pages background_color h w num_cols canvas (i * num_cols) ->
  exists canvas',
    for_range num_cols 0 (fun j canvas =>
      bpage ← match arr_pages !! (i * num_cols + j)%nat with
              | Some (Some page) => add_border_c page 1 (0, 0, 0)
              | Some None => Return (np_full (h + 2) (w + 2) background_color)
              | None => Raise IndexError
              end;
      setitem_slice astype_uint8 canvas
        (i * (h + 2)) ((i + 1) * (h + 2)) (j * (w + 2)) ((j + 1) * (w + 2)) bpage) canvas
    = Return canvas' /\
    shape canvas' = ((num_rows * (h + 2))%nat, (num_cols * (w + 2))%nat) /\
    filled pages background_color h w num_cols canvas' (S i * num_cols).
Proof.
  intros Hi Hshape Hfilled.
  pose (P := fun (j : nat) (c : ndarray) =>
    shape c = ((num_rows * (h + 2))%nat, (num_cols * (w + 2))%nat) /\
    filled pages background_color h w num_cols c (i * num_cols + j)).
  edestruct (for_range_inv P num_cols 0) as (c' & Hrun & Hc' & Hf').
  - split; [exact Hshape|]. rewrite Nat.add_0_r. exact Hfilled.
  - intros j c Hj [Hc Hf]. destruct (cell_step i j c Hi ltac:(lia) Hc Hf) as (c1 & E & Hc1 & Hf1).
    exists c1. split; [exact E|]. split; assumption.
  - exists c'. split; [exact Hrun|]. split; [exact Hc'|].
    replace (S i * num_cols)%nat with (i * num_cols + (0 + num_cols))%nat by lia. exact Hf'.
Qed.

(** The whole grid: the call returns a canvas of the grid's size all of
    whose cells show their images. *)
Lemma arrange_filled :
  pages <> [] ->
  exists canvas,
    arrange_pages_horizontal pages num_rows num_cols background_color = Return canvas /\
    shape canvas = ((num_rows * (h + 2))%nat, (num_cols * (w + 2))%nat) /\
    filled pages background_color h w num_cols canvas (num_rows * num_cols).
Proof.
  intros Hne. unfold arrange_pages_horizontal.
  assert (Hhead : exists p0, p0 ∈ pages /\
            match pages with [] => Raise IndexError | p :: _ => Return p end = Return p0).
  { revert Hne. generalize pages. intros [|p0 rest] Hne; [contradiction|].
    exists p0. split; [apply list_elem_of_here | reflexivity]. }
  destruct Hhead as (p0 & Hin & ->). cbn [mbind pyresult_bind].
  pose proof (pages_shape p0 Hin) as Hp0. injection Hp0 as Hh Hw.
  destruct (add_border_shape p0) as (t & -> & Ht). cbn [mbind pyresult_bind].
  rewrite Ht, Hh, Hw.
  fold arr_pages. unfold reshape. rewrite arr_pages_length, Nat.eqb_refl.
  cbn [mbind pyresult_bind].
  pose (P := fun (i : nat) (c : ndarray) =>
    shape c = ((num_rows * (h + 2))%nat, (num_cols * (w + 2))%nat) /\
    filled pages background_color h w num_cols c (i * num_cols)).
  match goal with
  | |- exists _, for_range _ _ ?body ?c = _ /\ _ =>
      destruct (for_range_inv P num_rows 0 body c) as (c' & Hrun & Hc' & Hf')
  end.
  - split; [reflexivity|]. intros k y x Hk. lia.
  - intros i c Hi [Hc Hf]. destruct (row_loop i c ltac:(lia) Hc Hf) as (c1 & E & Hc1 & Hf1).
    exists c1. split; [exact E|]. split; assumption.
  - exists c'. split; [exact Hrun|]. split; [exact Hc'|].
    rewrite Nat.add_0_l in Hf'. exact Hf'.
Qed.

End Grid.

(** C2: for a non-empty list of 8-bit RGB tiles of one size [h] by [w], a
    grid with room for them and a background colour of byte channels,
    [arrange_pages_horizontal] returns a canvas of shape
    [(rows * (h + 2), cols * (w + 2), 3)]; cell [k], in row-major order,
    shows tile [k] inside its one-pixel black border; and every cell after
    the last tile is the background colour at each of its pixels. *)
Theorem C2_composite_grid (pages : list ndarray) (num_rows num_cols : nat)
    (background_color : pixel) (h w : nat) :
  pages <> [] ->
  (forall p, p ∈ pages -> shape p = (h, w) /\ uint8_image p) ->
  is_uint8 background_color ->
  (length pages <= num_rows * num_cols)%nat ->
  exists canvas,
    arrange_pages_horizontal pages num_rows num_cols background_color = Return canvas /\
    shape canvas = ((num_rows * (h + 2))%nat, (num_cols * (w + 2))%nat) /\
    (forall k tile, pages !! k = Some tile ->
       forall y x, (y < h + 2)%nat -> (x < w + 2)%nat ->
         data canvas (k / num_cols * (h + 2) + y) (k mod num_cols * (w + 2) + x) =
           data (bordered tile) y x) /\
    (forall k, (length pages <= k < num_rows * num_cols)%nat ->
       forall y x, (y < h + 2)%nat -> (x < w + 2)%nat ->
         data canvas (k / num_cols * (h + 2) + y) (k mod num_cols * (w + 2) + x) =
           background_color).
Proof.
  intros Hne Hpages Hbg Hfit.
  destruct (arrange_filled pages num_rows num_cols background_color h w) as
    (canvas & Hrun & Hshape & Hfilled); [intros p Hp; apply Hpages, Hp | exact Hfit | exact Hne |].
  exists canvas. split; [exact Hrun|]. split; [exact Hshape|]. split.
  - intros k tile Hk y x Hy Hx.
    assert (Hlt : (k < length pages)%nat) by (apply lookup_lt_is_Some; eauto).
    rewrite Hfilled by lia. unfold cell_image. rewrite Hk.
    apply astype_uint8_id, bordered_uint8, Hpages. apply list_elem_of_lookup. eauto.
  - intros k Hk y x Hy Hx. rewrite Hfilled by lia. unfold cell_image.
    rewrite lookup_ge_None_2 by lia. cbn [np_full data]. apply astype_uint8_id, Hbg.
Qed.


Lemma C2_composite_grid_witness :
  exists canvas,
    arrange_pages_horizontal
      [np_full 1 2 (10, 20, 30); np_full 1 2 (40, 50, 60); np_full 1 2 (70, 80, 90)]
      2 2 (255, 255, 255) = Return canvas /\
    shape canvas = ((2 * (1 + 2))%nat, (2 * (2 + 2))%nat) /\
    (forall k tile,
       [np_full 1 2 (10, 20, 30); np_full 1 2 (40, 50, 60); np_full 1 2 (70, 80, 90)] !! k
         = Some tile ->
       forall y x, (y < 1 + 2)%nat -> (x < 2 + 2)%nat ->
         data canvas (k / 2 * (1 + 2) + y) (k mod 2 * (2 + 2) + x) =
           data (bordered tile) y x) /\
    (forall k,
       (length [np_full 1 2 (10, 20, 30)%Z; np_full 1 2 (40, 50, 60)%Z;
                np_full 1 2 (70, 80, 90)%Z] <= k < 2 * 2)%nat ->
       forall y x, (y < 1 + 2)%nat -> (x < 2 + 2)%nat ->
         data canvas (k / 2 * (1 + 2) + y) (k mod 2 * (2 + 2) + x) = (255, 255, 255)).
Proof.
  apply (C2_composite_grid
           [np_full 1 2 (10, 20, 30); np_full 1 2 (40, 50, 60); np_full 1 2 (70, 80, 90)]
           2 2 (255, 255, 255) 1 2).
  - discriminate.
  - intros p Hp. rewrite !elem_of_cons in Hp.
    destruct Hp as [->|[->|[->|Hp]]];
      [| | | exfalso; exact (proj1 (elem_of_nil p) Hp)];
      (split; [reflexivity | intros y x _ _; cbn; lia]).
  - cbn. lia.
  - cbn. lia.
Defined.

(** The same grid, evaluated: a border pixel, the three tiles, the blank
    fourth cell, and the shape. *)
Example arrange_three_tiles :
  match arrange_pages_horizontal
          [np_full 1 2 (10, 20, 30); np_full 1 2 (40, 50, 60); np_full 1 2 (70, 80, 90)]
          2 2 (255, 255, 255) with
  | Return c => Some (shape c, [data c 0 0; data c 1 1; data c 1 5; data c 4 2; data c 4 5; data c 3 4])
  | Raise _ => None
  end =
  Some ((6%nat, 8%nat),
        [(0, 0, 0); (10, 20, 30); (40, 50, 60); (70, 80, 90); (255, 255, 255); (255, 255, 255)]).
Proof. vm_compute. reflexivity. Qed.

(** No tile: [pages[0]] raises. *)
Example arrange_no_tile bg : arrange_pages_horizontal [] 2 2 bg = Raise IndexError.
Proof. reflexivity. Qed.

(** More tiles than cells: the reshape raises. *)
Example arrange_too_many :
  arrange_pages_horizontal [np_full 1 1 (1, 2, 3); np_full 1 1 (1, 2, 3); np_full 1 1 (1, 2, 3)]
    1 2 (0, 0, 0) = Raise ValueError.
Proof. reflexivity. Qed.

(** A tile of another size than the first: the assignment to the cell raises. *)
Example arrange_mismatched :
  arrange_pages_horizontal [np_full 1 1 (1, 2, 3); np_full 2 1 (1, 2, 3)] 1 2 (0, 0, 0)
    = Raise ValueError.
Proof. reflexivity. Qed.

(** A background channel outside a byte is stored modulo 256. *)
Example arrange_wide_background :
  match arrange_pages_horizontal [np_full 1 1 (1, 2, 3)] 1 2 (300, 0, 0) with
  | Return c => Some (data c 1 4)
  | Raise _ => None
  end = Some (44, 0, 0).
Proof. vm_compute. reflexivity. Qed.

End CanvasSpec.

(** ** LayoutContinuityTransfer and LayoutScaler *)

Module CloudSpec.
Import Cloud.

(** *** The dictionaries built from the reference *)

Lemma reference_entry_nil w : reference_entry [] w = None.
Proof. reflexivity. Qed.

Lemma reference_entry_snoc R r w :
  reference_entry (R ++ [r]) w =
    if decide (word r = w) then Some r else reference_entry R w.
Proof.
  unfold reference_entry. rewrite filter_app, filter_cons, filter_nil.
  destruct (decide (word r = w)).
  - apply last_snoc.
  - rewrite app_nil_r. reflexivity.
Qed.

Lemma foldl_snoc {A B : Type} (f : A -> B -> A) a l x :
  foldl f a (l ++ [x]) = f (foldl f a l) x.
Proof. rewrite foldl_app. reflexivity. Qed.

(** A lookup in a dictionary of the reference finds the attribute of the
    reference's entry for the word. *)
Lemma dict_of_lookup {V : Type} (val : entry -> V) R w :
  dict_of val R !! w = val <$> reference_entry R w.
Proof.
  unfold dict_of. induction R as [|r R IH] using rev_ind.
  - cbn. apply lookup_empty.
  - rewrite foldl_snoc, reference_entry_snoc.
    destruct (decide (word r = w)) as [->|Hne].
    + rewrite lookup_insert_eq. reflexivity.
    + rewrite lookup_insert_ne by exact Hne. exact IH.
Qed.

Lemma get_dict_of {V : Type} (val : entry -> V) R w dflt :
  get (dict_of val R) w dflt =
    match reference_entry R w with Some r => val r | None => dflt end.
Proof.
  unfold get. rewrite dict_of_lookup. destruct (reference_entry R w); reflexivity.
Qed.

Lemma reference_entry_Some R w r :
  reference_entry R w = Some r -> r ∈ R /\ word r = w.
Proof.
  unfold reference_entry. intros H. apply last_Some_elem_of in H.
  apply list_elem_of_filter in H. tauto.
Qed.

(** The reference has an entry for exactly the words that occur in it. *)
Lemma reference_entry_None R w :
  reference_entry R w = None <-> w ∉ word <$> R.
Proof.
  unfold reference_entry. rewrite last_None. split.
  - intros Hnil Hin. apply list_elem_of_fmap in Hin as (r & -> & Hr).
    assert (Hf : r ∈ filter (fun r0 => word r0 = word r) R)
      by (apply list_elem_of_filter; auto).
    rewrite Hnil in Hf. exact (proj1 (elem_of_nil r) Hf).
  - intros Hnot. destruct (filter (fun r => word r = w) R) as [|r l] eqn:E; [reflexivity|].
    exfalso. apply Hnot. assert (Hr : r ∈ filter (fun r => word r = w) R)
      by (rewrite E; apply list_elem_of_here).
    apply list_elem_of_filter in Hr as [<- Hr]. apply list_elem_of_fmap. eauto.
Qed.

(** With one entry per word, the entry for the word of an entry of the
    reference is that entry. *)
Lemma reference_entry_unique R r :
  NoDup (word <$> R) -> r ∈ R -> reference_entry R (word r) = Some r.
Proof.
  induction R as [|x R IH] using rev_ind; intros Hnd Hr.
  - exfalso. exact (proj1 (elem_of_nil r) Hr).
  - rewrite reference_entry_snoc. rewrite fmap_app in Hnd.
    apply NoDup_app in Hnd as (HndR & Hdisj & _).
    apply elem_of_app in Hr as [Hr|Hr].
    + destruct (decide (word x = word r)) as [E|_]; [|apply IH; assumption].
      exfalso. apply (Hdisj (word r)).
      * apply list_elem_of_fmap. eauto.
      * cbn. rewrite E. apply list_elem_of_here.
    + apply list_elem_of_singleton in Hr as ->. rewrite decide_True by reflexivity. reflexivity.
Qed.


(** *** Running the loops *)

Lemma layout_run c h l : h !! c = Some l -> layout_ c h = (Return l, h).
Proof. intros H. unfold layout_. rewrite H. reflexivity. Qed.

Lemma setitem_run c i e h l :
  h !! c = Some l -> (i < length l)%nat ->
  setitem c i e h = (Return tt, <[c := <[i := e]> l]> h).
Proof.
  intros H Hi. unfold setitem. rewrite H.
  destruct (Nat.ltb_spec i (length l)); [reflexivity | lia].
Qed.

Lemma bind_run {A B : Type} (m : py A) (k : A -> py B) h a h' :
  m h = (Return a, h') -> (m ≫= k) h = k a h'.
Proof. intros H. unfold mbind, py_bind. rewrite H. reflexivity. Qed.

(** Replacing item [i] of a list whose first [i] items are already mapped. *)
Lemma insert_mapped_prefix (g : entry -> entry) (T : list entry) i item :
  T !! i = Some item ->
  <[i := g item]> ((g <$> take i T) ++ drop i T) = (g <$> take (S i) T) ++ drop (S i) T.
Proof.
  intros Hi. assert (Hlen : (i < length T)%nat) by (apply lookup_lt_is_Some; eauto).
  rewrite insert_app_r_alt by (rewrite length_fmap, length_take; lia).
  rewrite length_fmap, length_take, Nat.min_l, Nat.sub_diag by lia.
  rewrite (drop_S _ _ _ Hi). cbn [list_insert].
  rewrite (take_S_r _ _ _ Hi), fmap_app, <- app_assoc. reflexivity.
Qed.

(** A loop whose body replaces item [i] by [g item]: after [n] iterations
    from index [i], the items below [i + n] have been replaced, one index at
    a time, and the others are as they were; nothing else is written. *)
Lemma for_enumerate_from_map (g : entry -> entry) c (body : nat -> entry -> py unit) :
  (forall i item h, body i item h = setitem c i (g item) h) ->
  forall n i T h,
    h !! c = Some ((g <$> take i T) ++ drop i T) ->
    (i + n <= length T)%nat ->
    for_enumerate_from n c i body h =
      (Return tt, <[c := (g <$> take (i + n) T) ++ drop (i + n) T]> h).
Proof.
  intros Hbody n. induction n as [|n IH]; intros i T h Hh Hlen.
  - cbn. rewrite Nat.add_0_r. rewrite insert_id by exact Hh. reflexivity.
  - cbn [for_enumerate_from]. rewrite (bind_run _ _ _ _ _ (layout_run _ _ _ Hh)).
    destruct (lookup_lt_is_Some_2 T i ltac:(lia)) as [item Hitem].
    assert (Hcur : ((g <$> take i T) ++ drop i T) !! i = Some item).
    { rewrite lookup_app_r by (rewrite length_fmap, length_take; lia).
      rewrite length_fmap, length_take, Nat.min_l, Nat.sub_diag by lia.
      rewrite lookup_drop, Nat.add_0_r. exact Hitem. }
    rewrite Hcur.
    assert (Hstep : body i item h =
              (Return tt, <[c := (g <$> take (S i) T) ++ drop (S i) T]> h)).
    { rewrite Hbody. rewrite (setitem_run _ _ _ _ _ Hh).
      - rewrite (insert_mapped_prefix g T i item Hitem). reflexivity.
      - rewrite length_app, length_fmap, length_take, length_drop. lia. }
    rewrite (bind_run _ _ _ _ _ Hstep).
    rewrite (IH (S i) T); [| apply lookup_insert_eq | lia].
    rewrite insert_insert_eq. replace (S i + n)%nat with (i + S n)%nat by lia. reflexivity.
Qed.

(** The iterator stops at the end of the list: with more iterations
    allowed than the list has items, the loop still ends after the last
    item. *)
Lemma for_enumerate_from_enough (g : entry -> entry) c (body : nat -> entry -> py unit) :
  (forall i item h, body i item h = setitem c i (g item) h) ->
  forall n i T h,
    h !! c = Some ((g <$> take i T) ++ drop i T) ->
    (i <= length T <= i + n)%nat ->
    for_enumerate_from n c i body h = (Return tt, <[c := g <$> T]> h).
Proof.
  intros Hbody n. induction n as [|n IH]; intros i T h Hh Hlen.
  - rewrite (for_enumerate_from_map g c body Hbody 0 i T h Hh) by lia.
    rewrite Nat.add_0_r. replace i with (length T) by lia.
    rewrite firstn_all, drop_all, app_nil_r. reflexivity.
  - cbn [for_enumerate_from]. rewrite (bind_run _ _ _ _ _ (layout_run _ _ _ Hh)).
    destruct (Nat.eq_dec i (length T)) as [->|Hne].
    + rewrite lookup_ge_None_2
        by (rewrite length_app, length_fmap, length_take, length_drop; lia).
      rewrite firstn_all, drop_all, app_nil_r in Hh.
      rewrite insert_id by exact Hh. reflexivity.
    + destruct (lookup_lt_is_Some_2 T i ltac:(lia)) as [item Hitem].
      assert (Hcur : ((g <$> take i T) ++ drop i T) !! i = Some item).
      { rewrite lookup_app_r by (rewrite length_fmap, length_take; lia).
        rewrite length_fmap, length_take, Nat.min_l, Nat.sub_diag by lia.
        rewrite lookup_drop, Nat.add_0_r. exact Hitem. }
      rewrite Hcur.
      assert (Hstep : body i item h =
                (Return tt, <[c := (g <$> take (S i) T) ++ drop (S i) T]> h)).
      { rewrite Hbody. rewrite (setitem_run _ _ _ _ _ Hh).
        - rewrite (insert_mapped_prefix g T i item Hitem). reflexivity.
        - rewrite length_app, length_fmap, length_take, length_drop. lia. }
      rewrite (bind_run _ _ _ _ _ Hstep).
      rewrite (IH (S i) T); [| apply lookup_insert_eq | lia].
      rewrite insert_insert_eq. reflexivity.
Qed.

Lemma for_enumerate_map (g : entry -> entry) c (body : nat -> entry -> py unit) T h :
  (forall i item h, body i item h = setitem c i (g item) h) ->
  h !! c = Some T ->
  for_enumerate c body h = (Return tt, <[c := g <$> T]> h).
Proof.
  intros Hbody Hh. unfold for_enumerate.
  rewrite (bind_run _ _ _ _ _ (layout_run _ _ _ Hh)).
  rewrite (for_enumerate_from_map g c body Hbody (length T) 0 T h); [| exact Hh | lia].
  rewrite Nat.add_0_l, firstn_all, drop_all, app_nil_r. reflexivity.
Qed.


(** *** [transfer_stats_between_wc] *)

(** The item built by an iteration, in the terms of the specification. *)
Lemma transfer_item_select R tf tp to tc tu item :
  transfer_item (dict_of fs R) (dict_of unk R) (dict_of pos R) (dict_of or_ R)
    (dict_of col R) tf tp to tc tu item =
  select tf tp to tc tu (source_for R (word item)) item.
Proof.
  unfold transfer_item, select, source_for. rewrite !get_dict_of.
  destruct (reference_entry R (word item)); reflexivity.
Qed.

(** The call returns its target, whose list has been replaced item by item;
    the rest of the heap is as before. *)
Lemma transfer_run h reference_cloud target_cloud R T tf tp to tc tu :
  h !! reference_cloud = Some R -> h !! target_cloud = Some T ->
  transfer_stats_between_wc reference_cloud target_cloud tf tp to tc tu h =
    (Return target_cloud,
     <[target_cloud := (fun item => select tf tp to tc tu (source_for R (word item)) item)
                         <$> T]> h).
Proof.
  intros HR HT. unfold transfer_stats_between_wc.
  rewrite (bind_run _ _ _ _ _ (layout_run _ _ _ HR)).
  erewrite bind_run; [reflexivity|].
  apply for_enumerate_map; [|exact HT].
  intros i item h'. unfold transfer_body. rewrite transfer_item_select. reflexivity.
Qed.

Lemma select_self tf tp to tc tu own : select tf tp to tc tu own own = own.
Proof. destruct own, tf, tp, to, tc, tu; reflexivity. Qed.

(** Transferring a layout with one entry per word onto itself changes
    nothing. *)
Lemma transfer_self R tf tp to tc tu :
  NoDup (word <$> R) ->
  (fun item => select tf tp to tc tu (source_for R (word item)) item) <$> R = R.
Proof.
  intros Hnd. rewrite <- (list_fmap_id R) at 2.
  apply Forall_fmap_ext_1. apply Forall_forall. intros r Hr.
  unfold source_for. rewrite (reference_entry_unique R r Hnd Hr). apply select_self.
Qed.


(** What [select] gives, attribute by attribute. *)
Lemma select_attributes tf tp to tc tu src own :
  let e := select tf tp to tc tu src own in
  word e = word own /\
  fs e = (if tf then fs src else fs own) /\
  pos e = (if tp then pos src else pos own) /\
  or_ e = (if to then or_ src else or_ own) /\
  col e = (if tc then col src else col own) /\
  unk e = (if tu then unk src else unk own).
Proof. cbn. auto 10. Qed.

(** C1: for every entry of the target, with word [w], the transfer leaves at
    the same place an entry whose flagged attributes are those of the
    reference's entry for [w] when [w] occurs in the reference, and otherwise
    the defaults ([0], and [(0, 0)] for the position), and whose unflagged
    attributes are the target's own in either case. *)
Theorem C1_transfer_attributes (h : heap) (reference_cloud target_cloud : cloud)
    (R T : list entry) (tf tp to tc tu : bool) :
  h !! reference_cloud = Some R -> h !! target_cloud = Some T ->
  exists T',
    transfer_stats_between_wc reference_cloud target_cloud tf tp to tc tu h =
      (Return target_cloud, <[target_cloud := T']> h) /\
    length T' = length T /\
    forall i item, T !! i = Some item ->
      exists item', T' !! i = Some item' /\
        (word item ∈ word <$> R ->
           exists r, r ∈ R /\ word r = word item /\
                     reference_entry R (word item) = Some r /\
                     item' = select tf tp to tc tu r item) /\
        (word item ∉ word <$> R ->
           item' = select tf tp to tc tu (default_entry (word item)) item).
Proof.
  intros HR HT. eexists. split; [apply (transfer_run _ _ _ R T); assumption|].
  split; [apply length_fmap|].
  intros i item Hi. eexists. split; [rewrite list_lookup_fmap, Hi; reflexivity|].
  unfold source_for. split.
  - intros Hin. destruct (reference_entry R (word item)) as [r|] eqn:E.
    + exists r. destruct (reference_entry_Some _ _ _ E). auto.
    + exfalso. apply reference_entry_None in E. contradiction.
  - intros Hnot. apply reference_entry_None in Hnot. rewrite Hnot. reflexivity.
Qed.

(** C7: the transfer leaves in the target as many entries as before, with
    the same words in the same order, so that no word of the reference alone
    appears; and the reference's list is as before, the reference being
    another object than the target or having one entry per word. *)
Theorem C7_transfer_frame (h : heap) (reference_cloud target_cloud : cloud)
    (R T : list entry) (tf tp to tc tu : bool) :
  h !! reference_cloud = Some R -> h !! target_cloud = Some T ->
  reference_cloud <> target_cloud \/ NoDup (word <$> R) ->
  exists T' h',
    transfer_stats_between_wc reference_cloud target_cloud tf tp to tc tu h =
      (Return target_cloud, h') /\
    h' !! target_cloud = Some T' /\
    length T' = length T /\
    word <$> T' = word <$> T /\
    h' !! reference_cloud = Some R /\
    (forall w, w ∈ word <$> T' -> w ∈ word <$> T).
Proof.
  intros HR HT Hsep. eexists _, _.
  split; [apply (transfer_run _ _ _ R T); assumption|].
  split; [apply lookup_insert_eq|]. split; [apply length_fmap|].
  assert (Hwords : word <$> ((fun item => select tf tp to tc tu (source_for R (word item)) item)
                               <$> T) = word <$> T).
  { rewrite <- list_fmap_compose. apply list_fmap_ext. intros i x _. reflexivity. }
  split; [exact Hwords|]. split; [|rewrite Hwords; auto].
  destruct (decide (reference_cloud = target_cloud)) as [->|Hne].
  - destruct Hsep as [Hne|Hnd]; [contradiction|].
    rewrite HT in HR. injection HR as ->.
    rewrite lookup_insert_eq, (transfer_self R _ _ _ _ _ Hnd). reflexivity.
  - rewrite lookup_insert_ne by congruence. exact HR.
Qed.


Lemma C1_transfer_attributes_witness :
  exists T',
    transfer_stats_between_wc 1 2 false true false true false sample_heap =
      (Return 2%positive, <[2%positive := T']> sample_heap) /\
    length T' = length sample_target /\
    forall i item, sample_target !! i = Some item ->
      exists item', T' !! i = Some item' /\
        (word item ∈ word <$> sample_reference ->
           exists r, r ∈ sample_reference /\ word r = word item /\
                     reference_entry sample_reference (word item) = Some r /\
                     item' = select false true false true false r item) /\
        (word item ∉ word <$> sample_reference ->
           item' = select false true false true false (default_entry (word item)) item).
Proof.
  apply (C1_transfer_attributes sample_heap 1 2 sample_reference sample_target
           false true false true false); reflexivity.
Defined.

Lemma C7_transfer_frame_witness :
  exists T' h',
    transfer_stats_between_wc 1 2 true true true true true sample_heap =
      (Return 2%positive, h') /\
    h' !! 2%positive = Some T' /\
    length T' = length sample_target /\
    word <$> T' = word <$> sample_target /\
    h' !! 1%positive = Some sample_reference /\
    (forall w, w ∈ word <$> T' -> w ∈ word <$> sample_target).
Proof.
  apply (C7_transfer_frame sample_heap 1 2 sample_reference sample_target
           true true true true true); [reflexivity | reflexivity |].
  left. discriminate.
Defined.


(** *** Examples *)

(** The transfer of position and colour from the sample reference: "a"
    takes them from the reference and keeps its font size; "c", which the
    reference lacks, gets the defaults. *)
Example transfer_position_and_colour :
  transfer_stats_between_wc 1 2 false true false true false sample_heap =
    (Return 2%positive,
     <[2%positive :=
         [ Entry "a" (PyFloat 1) (NumInt 8) (PyTuple [PyInt 1; PyInt 1]) (PyInt 2) (PyStr "red");
           Entry "c" (PyFloat 0.25) (NumInt 3) (PyTuple [PyInt 0; PyInt 0]) PyNone (PyInt 0) ]]>
       sample_heap).
Proof. vm_compute. reflexivity. Qed.

(** With all flags off the target is as before. *)
Example transfer_nothing :
  transfer_stats_between_wc 1 2 false false false false false sample_heap =
    (Return 2%positive, sample_heap).
Proof. vm_compute. reflexivity. Qed.

(** A reference that is the target and has a word twice is changed by the
    transfer: both entries get the font size of the last. *)
Example transfer_alias_duplicates :
  transfer_stats_between_wc 1 1 true false false false false
    {[1%positive := [ Entry "a" PyNone (NumInt 1) PyNone PyNone PyNone;
                      Entry "a" PyNone (NumInt 2) PyNone PyNone PyNone ]]} =
    (Return 1%positive,
     {[1%positive := [ Entry "a" PyNone (NumInt 2) PyNone PyNone PyNone;
                       Entry "a" PyNone (NumInt 2) PyNone PyNone PyNone ]]}).
Proof. vm_compute. reflexivity. Qed.


(** *** [scale_wordcloud] *)

Lemma dict_of_fmap {V : Type} (val : entry -> V) (g : entry -> entry) l :
  (forall x, word (g x) = word x /\ val (g x) = val x) ->
  dict_of val (g <$> l) = dict_of val l.
Proof.
  intros Hg. unfold dict_of. induction l as [|x l IH] using rev_ind; [reflexivity|].
  rewrite fmap_app. cbn [fmap list_fmap]. rewrite !foldl_snoc, IH.
  destruct (Hg x) as [-> ->]. reflexivity.
Qed.

Lemma get_reference_font_size R w :
  get (dict_of fs R) w (NumInt 1) = reference_font_size R w.
Proof. apply get_dict_of. Qed.

(** The dictionary of font sizes that [scale_wordcloud] builds after the
    transfer is that of the reference before the call, also when the
    reference is the target. *)
Lemma font_sizes_after_transfer (h : heap) (reference_cloud target_cloud : cloud)
    (R T : list entry) :
  h !! reference_cloud = Some R -> h !! target_cloud = Some T ->
  exists R', <[target_cloud := moved R <$> T]> h !! reference_cloud = Some R' /\
             dict_of fs R' = dict_of fs R.
Proof.
  intros HR HT. destruct (decide (reference_cloud = target_cloud)) as [->|Hne].
  - rewrite HT in HR. injection HR as ->. eexists. split; [apply lookup_insert_eq|].
    apply dict_of_fmap. intros x. split; reflexivity.
  - exists R. split; [|reflexivity]. rewrite lookup_insert_ne by congruence. exact HR.
Qed.

(** An iteration of the scaling loop assigns the item that [scale_item]
    builds, or raises what the computation of the font size raises and
    assigns nothing. *)
Lemma scale_body_item np_log10 d t r scale_type c i item (h : heap) :
  scale_body np_log10 d t r scale_type c i item h =
    match scale_item np_log10 d t r scale_type item with
    | Return newitem => setitem c i newitem h
    | Raise e => (Raise e, h)
    end.
Proof.
  unfold scale_body, scale_item, lift, mbind, py_bind, pyresult_bind.
  destruct (scaled_font_size np_log10 d (word item) t r scale_type); reflexivity.
Qed.

(** A loop over the list of [c] whose iteration [i] assigns [g item] to item
    [i], or raises: the items are replaced one index at a time, in ascending
    order, up to the first exception, and nothing else is written. *)
Lemma for_enumerate_from_run (g : entry -> pyresult entry) c
    (body : nat -> entry -> py unit) :
  (forall i item (h : heap), body i item h =
     match g item with Return y => setitem c i y h | Raise e => (Raise e, h) end) ->
  forall n (Y U : list entry) (h : heap),
    h !! c = Some (Y ++ U) ->
    for_enumerate_from n c (length Y) body h =
      (fst (run_items n g U), <[c := Y ++ snd (run_items n g U)]> h).
Proof.
  intros Hbody n. induction n as [|n IH]; intros Y U h Hh.
  - cbn. rewrite insert_id by exact Hh. reflexivity.
  - cbn [for_enumerate_from]. rewrite (bind_run _ _ _ _ _ (layout_run _ _ _ Hh)).
    destruct U as [|x U].
    + rewrite lookup_ge_None_2 by (rewrite app_nil_r; lia).
      cbn. rewrite insert_id by exact Hh. reflexivity.
    + rewrite list_lookup_middle by reflexivity.
      cbn [run_items]. unfold mbind, py_bind. rewrite Hbody.
      destruct (g x) as [y|e].
      * rewrite (setitem_run _ _ _ _ _ Hh) by (rewrite length_app; cbn; lia).
        rewrite insert_app_r_alt, Nat.sub_diag by lia.
        change (<[0%nat := y]> (x :: U)) with (y :: U). cbn [fst snd].
        specialize (IH (Y ++ [y]) U (<[c := Y ++ y :: U]> h)).
        rewrite length_app, Nat.add_1_r, <- app_assoc in IH. cbn [app] in IH.
        rewrite IH by apply lookup_insert_eq.
        rewrite insert_insert_eq, <- app_assoc. reflexivity.
      * cbn [fst snd]. rewrite insert_id by exact Hh. reflexivity.
Qed.

(** The whole call: the transfer, then the loop of the scaling on the
    transferred list, up to its first exception. *)
Lemma scale_run np_log10 (h : heap) (target_cloud reference_cloud : cloud)
    (R T : list entry) t r scale_type :
  h !! reference_cloud = Some R -> h !! target_cloud = Some T ->
  scale_wordcloud np_log10 target_cloud reference_cloud t r scale_type h =
    (match fst (run_items (length T) (scale_item np_log10 (dict_of fs R) t r scale_type)
                  (moved R <$> T)) with
     | Return _ => Return target_cloud
     | Raise e => Raise e
     end,
     <[target_cloud :=
         snd (run_items (length T) (scale_item np_log10 (dict_of fs R) t r scale_type)
                (moved R <$> T))]> h).
Proof.
  intros HR HT. unfold scale_wordcloud.
  rewrite (bind_run _ _ _ _ _ (transfer_run _ _ _ R T _ _ _ _ _ HR HT)).
  fold (moved R).
  destruct (font_sizes_after_transfer _ _ _ _ _ HR HT) as (R' & HR' & Hd).
  rewrite (bind_run _ _ _ _ _ (layout_run _ _ _ HR')). rewrite Hd.
  set (h1 := <[target_cloud := moved R <$> T]> h).
  assert (Hh1 : h1 !! target_cloud = Some ([] ++ (moved R <$> T))) by apply lookup_insert_eq.
  unfold mbind at 1, py_bind at 1. unfold for_enumerate.
  rewrite (bind_run _ _ _ _ _ (layout_run _ _ _ Hh1)). cbn [app]. rewrite length_fmap.
  pose proof (for_enumerate_from_run (scale_item np_log10 (dict_of fs R) t r scale_type)
                target_cloud _
                (scale_body_item np_log10 (dict_of fs R) t r scale_type target_cloud)
                (length T) [] (moved R <$> T) h1 Hh1) as Hloop.
  cbn [length app] in Hloop. rewrite Hloop. unfold h1. rewrite insert_insert_eq.
  destruct (fst (run_items _ _ _)) as [[]|e]; reflexivity.
Qed.

(** *** The list a run of the loop leaves *)

Lemma run_items_nil n g : run_items n g [] = (Return tt, []).
Proof. destruct n; reflexivity. Qed.

(** While every iteration returns, the items are replaced in order. *)
Lemma run_items_map (g : entry -> pyresult entry) (g' : entry -> entry) n l :
  (forall x, x ∈ take n l -> g x = Return (g' x)) ->
  run_items n g l = (Return tt, (g' <$> take n l) ++ drop n l).
Proof.
  revert l. induction n as [|n IH]; intros l Hg; [reflexivity|].
  destruct l as [|x l]; [reflexivity|].
  cbn [run_items take drop fmap list_fmap app].
  rewrite (Hg x) by (cbn; apply list_elem_of_here).
  rewrite IH by (intros y Hy; apply Hg; cbn; apply list_elem_of_further, Hy).
  reflexivity.
Qed.


(** A run that returns after the last item has replaced every item. *)
Lemma run_items_returned (g : entry -> pyresult entry) n l :
  (length l <= n)%nat ->
  fst (run_items n g l) = Return tt ->
  Forall2 (fun x y => g x = Return y) l (snd (run_items n g l)).
Proof.
  revert l. induction n as [|n IH]; intros l Hn Hret.
  - destruct l; [constructor | cbn in Hn; lia].
  - destruct l as [|x l]; [constructor|]. cbn [run_items] in *.
    destruct (g x) as [y|e] eqn:E; [|discriminate].
    cbn [fst snd] in *. constructor; [exact E|]. apply IH; [cbn in Hn; lia | exact Hret].
Qed.

(** Two lists on whose items the iterations agree have the same outcome,
    and, when the loop returns after the last item, the same list. *)
Lemma run_items_agree (g : entry -> pyresult entry) n l1 l2 :
  Forall2 (fun a b => g a = g b) l1 l2 ->
  fst (run_items n g l1) = fst (run_items n g l2) /\
  ((length l1 <= n)%nat -> fst (run_items n g l1) = Return tt ->
     snd (run_items n g l1) = snd (run_items n g l2)).
Proof.
  intros H. revert n. induction H as [|a b l1 l2 Hab _ IH]; intros n.
  - split; reflexivity.
  - destruct n as [|n]; [split; [reflexivity | cbn; lia]|].
    cbn [run_items]. rewrite <- Hab. destruct (g a) as [y|e].
    + destruct (IH n) as [Hf Hs]. cbn [fst snd]. split; [exact Hf|].
      intros Hn Hret. f_equal. apply Hs; [cbn in Hn; lia | exact Hret].
    + split; [reflexivity | discriminate].
Qed.

(** *** The font size of an entry, mode by mode *)

Lemma mul_float64_has_float x l :
  has_float x = true -> mul_float64 x l = Return (to_float x * l)%float.
Proof.
  destruct x as [z|f|f]; [|reflexivity..].
  unfold has_float, mul_float64, float_of_int, to_float. intros Hz.
  destruct (is_infinity (float_of_Z z)); [discriminate | reflexivity].
Qed.

Lemma is_int64_or_uint64_spec n :
  is_int64_or_uint64 n = true <-> - 2 ^ 63 <= n < 2 ^ 64.
Proof.
  unfold is_int64_or_uint64. rewrite andb_true_iff, Z.leb_le, Z.ltb_lt. reflexivity.
Qed.

(** In log mode the font size is computed, without any exception, from
    counts that numpy takes as 64-bit integers and a reference font size that
    has a binary64 value. *)
Lemma log_scale_returns np_log10 x t r :
  - 2 ^ 63 <= t < 2 ^ 64 -> - 2 ^ 63 <= r < 2 ^ 64 -> has_float x = true ->
  log_scale np_log10 x t r = Return (NumFloat64 (to_float x * np_log10 t / np_log10 r)).
Proof.
  intros Ht Hr Hx. unfold log_scale, log10_int.
  apply is_int64_or_uint64_spec in Ht, Hr. rewrite Ht, Hr.
  cbn [mbind pyresult_bind]. rewrite (mul_float64_has_float _ _ Hx). reflexivity.
Qed.

Lemma scaled_font_size_log np_log10 R w t r :
  scaled_font_size np_log10 (dict_of fs R) w t r "log" =
    log_scale np_log10 (reference_font_size R w) t r.
Proof. unfold scaled_font_size. cbn [String.eqb]. rewrite get_reference_font_size. reflexivity. Qed.

Lemma scaled_font_size_linear np_log10 R w t r :
  scaled_font_size np_log10 (dict_of fs R) w t r "linear" =
    linear_scale (reference_font_size R w) t r.
Proof. unfold scaled_font_size. cbn [String.eqb]. rewrite get_reference_font_size. reflexivity. Qed.

Lemma has_float_one : has_float (NumInt 1) = true.
Proof. vm_compute. reflexivity. Qed.

(** The reference font size of a word has a binary64 value when the font
    sizes of the reference have one: the default is 1. *)
Lemma reference_font_size_has_float R w :
  Forall (fun r => has_float (fs r) = true) R ->
  has_float (reference_font_size R w) = true.
Proof.
  intros HR. unfold reference_font_size.
  destruct (reference_entry R w) as [r|] eqn:E; [|exact has_float_one].
  apply reference_entry_Some in E as [Hr _].
  rewrite Forall_forall in HR. apply HR, Hr.
Qed.

(** The scaling of an item in a loop all of whose font sizes are computed. *)
Lemma scale_item_moved np_log10 R t r scale_type (sfs : string -> pynum) item :
  scaled_font_size np_log10 (dict_of fs R) (word item) t r scale_type = Return (sfs (word item)) ->
  scale_item np_log10 (dict_of fs R) t r scale_type (moved R item) =
    Return (set_fs (moved R item) (sfs (word (moved R item)))).
Proof.
  intros Hs. unfold scale_item. change (word (moved R item)) with (word item).
  rewrite Hs. reflexivity.
Qed.


(** The call when the font size of every entry is computed: every entry is
    the transferred one with the new font size. *)
Lemma scale_returns np_log10 (h : heap) (target_cloud reference_cloud : cloud)
    (R T : list entry) t r scale_type (sfs : string -> pynum) :
  h !! reference_cloud = Some R -> h !! target_cloud = Some T ->
  (forall item, item ∈ T ->
     scaled_font_size np_log10 (dict_of fs R) (word item) t r scale_type =
       Return (sfs (word item))) ->
  scale_wordcloud np_log10 target_cloud reference_cloud t r scale_type h =
    (Return target_cloud,
     <[target_cloud := (fun item => set_fs (moved R item) (sfs (word item))) <$> T]> h).
Proof.
  intros HR HT Hs. rewrite (scale_run np_log10 h _ _ R T t r scale_type HR HT).
  rewrite (run_items_map _ (fun x => set_fs x (sfs (word x)))).
  - cbn [fst snd]. rewrite <- (length_fmap (moved R) T).
    rewrite firstn_all, drop_all, app_nil_r, <- list_fmap_compose. reflexivity.
  - intros x Hx. rewrite <- (length_fmap (moved R) T), firstn_all in Hx.
    apply list_elem_of_fmap in Hx as (item & -> & Hitem).
    apply scale_item_moved, Hs, Hitem.
Qed.



(** C3, as stated, fails: with a target count of 1, and with a reference
    count of 1, the call in log mode returns its target; the font sizes are
    [10 * 0.0 / 1.0] and [10 * 1.0 / 0.0], and no exception is raised. *)
Lemma C3_counterexample :
  (fst (scale_wordcloud log10_sample 2 1 1 10 "log" sample_heap) = Return 2%positive /\
   font_sizes (snd (scale_wordcloud log10_sample 2 1 1 10 "log" sample_heap)) 2%positive
     = Some [NumFloat64 0; NumFloat64 0]) /\
  (fst (scale_wordcloud log10_sample 2 1 10 1 "log" sample_heap) = Return 2%positive /\
   font_sizes (snd (scale_wordcloud log10_sample 2 1 10 1 "log" sample_heap)) 2%positive
     = Some [NumFloat64 infinity; NumFloat64 infinity]).
Proof. vm_compute. auto. Qed.

(** C3 (amended): in log mode the scaling checks no domain: for all counts
    that numpy takes as 64-bit integers, those of 1 and below included, and
    reference font sizes that have a binary64 value, it returns its target,
    each entry of which keeps its word and has as font size the binary64
    value of
    [referenceFontSize * log10(targetTotalCount) / log10(referenceTotalCount)],
    computed from left to right, where [referenceFontSize] is the font size
    of the reference's entry for the word, or 1 when the reference has
    none. *)
Theorem C3_log_scale_total (np_log10 : Z -> float) (h : heap)
    (target_cloud reference_cloud : cloud) (T R : list entry)
    (target_wordcount reference_wordcount : Z) :
  h !! target_cloud = Some T -> h !! reference_cloud = Some R ->
  - 2 ^ 63 <= target_wordcount < 2 ^ 64 ->
  - 2 ^ 63 <= reference_wordcount < 2 ^ 64 ->
  Forall (fun r => has_float (fs r) = true) R ->
  exists T',
    scale_wordcloud np_log10 target_cloud reference_cloud
      target_wordcount reference_wordcount "log" h =
      (Return target_cloud, <[target_cloud := T']> h) /\
    length T' = length T /\
    forall i item, T !! i = Some item ->
      exists item', T' !! i = Some item' /\
        word item' = word item /\
        fs item' =
          NumFloat64 (to_float (reference_font_size R (word item))
                      * np_log10 target_wordcount / np_log10 reference_wordcount).
Proof.
  intros HT HR Ht Hr Hfs. eexists. split.
  - apply (scale_returns np_log10 h _ _ R T _ _ "log"
             (fun w => NumFloat64 (to_float (reference_font_size R w)
                                   * np_log10 target_wordcount
                                   / np_log10 reference_wordcount))); [assumption..|].
    intros item _. rewrite scaled_font_size_log.
    apply log_scale_returns; [assumption..|]. apply reference_font_size_has_float, Hfs.
  - split; [rewrite length_fmap; reflexivity|].
    intros i item Hi. eexists. split; [rewrite list_lookup_fmap, Hi; reflexivity|].
    split; reflexivity.
Qed.

Lemma C3_log_scale_total_witness :
  exists T',
    scale_wordcloud log10_sample 2 1 100 10 "log" sample_heap =
      (Return 2%positive, <[2%positive := T']> sample_heap) /\
    length T' = length sample_target /\
    forall i item, sample_target !! i = Some item ->
      exists item', T' !! i = Some item' /\
        word item' = word item /\
        fs item' =
          NumFloat64 (to_float (reference_font_size sample_reference (word item))
                      * log10_sample 100 / log10_sample 10).
Proof.
  apply (C3_log_scale_total log10_sample sample_heap 2 1 sample_target sample_reference 100 10);
    [reflexivity | reflexivity | lia | lia |].
  repeat constructor.
Defined.


(** The same with the binary64 neighbours of that value of [log10(11)], two
    on either side: the outcome does not hang on the last bits of the
    logarithm. *)
Example self_scale_inexact_nearby :
  forallb (fun l => negb (PrimFloat.eqb (float_of_Z 31 * l / l) (float_of_Z 31)))
    [0x1.0a98b6050c56dp+0; 0x1.0a98b6050c56ep+0; 0x1.0a98b6050c56fp+0;
     0x1.0a98b6050c570p+0; 0x1.0a98b6050c571p+0]%float = true.
Proof. vm_compute. reflexivity. Qed.







(** *** Examples *)

(** Scaling in log mode with counts 100 and 10: every reference font size
    is doubled, and 1 stands for the font size of the word that the
    reference lacks; the caller's target holds the new entries. *)
Example scale_log_sample :
  scale_wordcloud log10_sample 2 1 100 10 "log" sample_heap =
    (Return 2%positive,
     <[2%positive :=
         [ Entry "a" (PyFloat 1) (NumFloat64 20) (PyTuple [PyInt 1; PyInt 1]) PyNone
             (PyStr "red");
           Entry "c" (PyInt 0) (NumFloat64 2) (PyTuple [PyInt 0; PyInt 0]) (PyInt 0)
             (PyInt 0) ]]> sample_heap).
Proof. vm_compute. reflexivity. Qed.

(** Scaling in linear mode: integers give a Python [float]. *)
Example scale_linear_sample :
  font_sizes (snd (scale_wordcloud log10_sample 2 1 3 4 "linear" sample_heap)) 2%positive =
    Some [NumFloat 7.5; NumFloat 0.75].
Proof. vm_compute. reflexivity. Qed.

(** The logistic mode stops at [assert False], after the transfer has
    rewritten the target. *)
Example scale_logistic :
  scale_wordcloud log10_sample 2 1 100 10 "logistic" sample_heap =
    (Raise AssertionError, <[2%positive := moved sample_reference <$> sample_target]> sample_heap).
Proof. vm_compute. reflexivity. Qed.

(** Any other mode leaves [scaled_fs] unbound. *)
Example scale_unknown_mode :
  fst (scale_wordcloud log10_sample 2 1 100 10 "sigmoid" sample_heap) = Raise UnboundLocalError.
Proof. vm_compute. reflexivity. Qed.

(** True division of Python integers by a zero reference count raises. *)
Example scale_linear_zero :
  fst (scale_wordcloud log10_sample 2 1 100 0 "linear" sample_heap) = Raise ZeroDivisionError.
Proof. vm_compute. reflexivity. Qed.

(** A count of [2^64] is no 64-bit integer: [np.log10] raises, in log mode,
    whichever of the two counts it is; the largest count that numpy takes
    is [2^64 - 1]. *)
Example scale_log_huge_count :
  fst (scale_wordcloud log10_sample 2 1 (2 ^ 64) 10 "log" sample_heap) = Raise TypeError /\
  fst (scale_wordcloud log10_sample 2 1 10 (2 ^ 64) "log" sample_heap) = Raise TypeError /\
  fst (scale_wordcloud log10_sample 2 1 (2 ^ 64 - 1) 10 "log" sample_heap) = Return 2%positive.
Proof. vm_compute. auto. Qed.

(** A linear scaling whose quotient is beyond binary64 raises, the product
    of the integers being exact; with the same count on both sides the
    quotient is the font size. *)
Example scale_linear_overflow :
  fst (scale_wordcloud log10_sample 2 1 (10 ^ 400) 1 "linear" sample_heap)
    = Raise OverflowError /\
  font_sizes (snd (scale_wordcloud log10_sample 2 1 (10 ^ 400) (10 ^ 400) "linear" sample_heap))
    2%positive = Some [NumFloat 10; NumFloat 1].
Proof. vm_compute. auto. Qed.

(** An exception in the middle of the loop leaves the entries before it
    scaled: the reference font size of "a" is an integer, which a zero count
    divides with an exception, and that of "b" is an [np.float64], which it
    divides to [inf]. *)
Example scale_raises_midway :
  scale_wordcloud log10_sample 2 1 3 0 "linear"
    (<[1%positive := [ Entry "a" PyNone (NumInt 10) PyNone PyNone PyNone;
                       Entry "b" PyNone (NumFloat64 5) PyNone PyNone PyNone ]]>
       {[2%positive := [ Entry "b" PyNone (NumInt 1) PyNone PyNone PyNone;
                         Entry "a" PyNone (NumInt 1) PyNone PyNone PyNone ]]}) =
    (Raise ZeroDivisionError,
     <[1%positive := [ Entry "a" PyNone (NumInt 10) PyNone PyNone PyNone;
                       Entry "b" PyNone (NumFloat64 5) PyNone PyNone PyNone ]]>
       {[2%positive := [ Entry "b" PyNone (NumFloat64 infinity) PyNone PyNone PyNone;
                         Entry "a" PyNone (NumInt 1) PyNone PyNone PyNone ]]}).
Proof. vm_compute. reflexivity. Qed.

(** True division of Python integers rounds the exact quotient once:
    [111 * 3519899978568896118 / 7589884250] is not the quotient of the
    rounded product; zero takes the sign of the quotient; the largest
    integer with a binary64 value is [2^1024 - 2^970 - 1]. *)
Example true_division :
  int_true_divide 1 3 = Return 0x1.5555555555555p-2%float /\
  int_true_divide (111 * 3519899978568896118) 7589884250 = Return 0x1.7f89b2a674dc3p+35%float /\
  (float_of_Z (111 * 3519899978568896118) / float_of_Z 7589884250)%float
    = 0x1.7f89b2a674dc2p+35%float /\
  int_true_divide 3 (2 ^ 1075) = Return 0x0.0000000000002p-1022%float /\
  int_true_divide 0 (-5) = Return (-0)%float /\
  int_true_divide (3 * 10 ^ 400) (10 ^ 400) = Return 3%float /\
  int_true_divide (10 ^ 401) 1 = Raise OverflowError /\
  int_true_divide 1 0 = Raise ZeroDivisionError /\
  float_of_int (2 ^ 1024 - 2 ^ 970 - 1) = Return 0x1.fffffffffffffp+1023%float /\
  float_of_int (2 ^ 1024 - 2 ^ 970) = Raise OverflowError.
Proof. vm_compute. repeat split. Qed.

End CloudSpec.

(** ** GridShapeSelector: further properties *)

Module ShapeExtra.
Import Shape ShapeSpec.

Lemma half_steps (k : Z) :
  0 <= k ->
  (k + 1) / 2 + k / 2 = k /\ 0 <= (k + 1) / 2 - k / 2 <= 1 /\
  ((k + 1) / 2 - k / 2 = k mod 2).
Proof.
  intros Hk. pose proof (Z.div_mod k 2 ltac:(lia)) as H0.
  pose proof (Z.mod_pos_bound k 2 ltac:(lia)) as Hm.
  assert (k mod 2 = 0 \/ k mod 2 = 1) as [E|E] by lia; rewrite E in *.
  - replace (k + 1) with (1 + (k / 2) * 2) by lia.
    rewrite Z.div_add by lia. change (1 / 2) with 0. lia.
  - replace (k + 1) with (0 + (k / 2 + 1) * 2) by lia.
    rewrite Z.div_add by lia. change (0 / 2) with 0. lia.
Qed.

(** X1: whatever the tile count, the shape returned has one or two rows more
    than columns, between 4 and 53 rows and between 2 and 52 columns. *)
Theorem shape_near_square (size : Z) :
  exists rows cols,
    determine_ideal_shape size = Return (rows, cols) /\
    (rows = cols + 1 \/ rows = cols + 2) /\
    4 <= rows <= 53 /\ 2 <= cols <= 52.
Proof.
  rewrite determine_ideal_shape_eq.
  destruct (shape_loop_spec 100 0 (0, 0) size) as (k & Hk & Hk0 & Heq & _).
  specialize (Hk0 ltac:(lia)).
  rewrite Heq, grow_all_closed_form. unfold shape_of. cbn [fst snd].
  destruct base_shape as [-> ->]. eexists _, _. split; [reflexivity|].
  destruct (half_steps (Z.of_nat k) ltac:(lia)) as (Hsum & Hdiff & _).
  lia.
Qed.

(** X2: for a tile count above 8 and within reach (at most 2756), the shape
    returned has fewer spare cells than it has rows: the shape one step
    earlier was too small. *)
Theorem shape_spare_cells (size : Z) :
  8 < size <= 2756 ->
  exists rows cols,
    determine_ideal_shape size = Return (rows, cols) /\
    size <= rows * cols /\ rows * cols - size < rows.
Proof.
  intros Hsize. rewrite determine_ideal_shape_eq.
  destruct (shape_loop_spec 100 0 (0, 0) size) as (k & Hk & Hk0 & Heq & Hbefore & Hroom & _).
  specialize (Hk0 ltac:(lia)).
  assert (Hk2 : (2 <= k)%nat).
  { destruct (Nat.eq_dec k 1%nat) as [->|]; [|lia]. exfalso.
    specialize (Hroom ltac:(lia)).
    assert (H8 : capacity (shape_of (grow_all 1 0 (0, 0))) = 8) by reflexivity. lia. }
  assert (Hcap : size <= capacity (shape_of (grow_all k 0 (0, 0)))).
  { destruct (Nat.eq_dec k 100%nat) as [->|Hne]; [|apply Hroom; lia].
    destruct shape_after_range as [-> ->]. lia. }
  specialize (Hbefore (k - 1)%nat ltac:(lia)).
  rewrite Heq. rewrite grow_all_closed_form in *.
  unfold capacity, shape_of in *. cbn [fst snd] in *.
  destruct base_shape as [Hr Hc]. rewrite Hr, Hc in *.
  eexists _, _. split; [reflexivity|]. split; [exact Hcap|].
  replace (Z.of_nat (k - 1)) with (Z.of_nat k - 1) in Hbefore by lia.
  replace (Z.of_nat k - 1 + 1) with (Z.of_nat k) in Hbefore by lia.
  destruct (half_steps (Z.of_nat k) ltac:(lia)) as (Hsum & Hdiff & _).
  destruct (half_steps (Z.of_nat k - 1) ltac:(lia)) as (Hsum' & Hdiff' & _).
  replace (Z.of_nat k - 1 + 1) with (Z.of_nat k) in * by lia.
  set (a := (Z.of_nat k + 1) / 2) in *. set (b := Z.of_nat k / 2) in *.
  set (b' := (Z.of_nat k - 1) / 2) in *.
  assert (Hb' : b' = a - 1) by lia.
  assert (a = b \/ a = b + 1) as [E|E] by lia; rewrite Hb', E in *; nia.
Qed.

Lemma shape_spare_cells_witness :
  exists rows cols,
    determine_ideal_shape 17 = Return (rows, cols) /\
    17 <= rows * cols /\ rows * cols - 17 < rows.
Proof. apply (shape_spare_cells 17). lia. Defined.

End ShapeExtra.

(** ** TileCanvas: further properties *)

Module CanvasExtra.
Import Canvas CanvasSpec.

(** Both border functions, for a border of [b >= 1] pixels: the slice
    [b:-b] of the new array has the shape of the image. *)
Lemma border_assign (newimage image : ndarray) (b : nat) :
  (1 <= b)%nat ->
  height newimage = (height image + b * 2)%nat ->
  width newimage = (width image + b * 2)%nat ->
  exists out,
    setitem_slice id newimage b (neg_stop (height newimage) b)
      b (neg_stop (width newimage) b) image = Return out /\
    shape out = ((height image + b * 2)%nat, (width image + b * 2)%nat) /\
    forall y x,
      data out y x =
        if (b <=? y)%nat && (y <? height image + b)%nat &&
           (b <=? x)%nat && (x <? width image + b)%nat
        then data image (y - b) (x - b) else data newimage y x.
Proof.
  intros Hb Hh Hw. unfold setitem_slice, slice_bounds, neg_stop, broadcasts.
  destruct (Nat.eqb_spec b 0); [lia|]. rewrite Hh, Hw.
  replace (Nat.min b (height image + b * 2)) with b by lia.
  replace (Nat.min (height image + b * 2 - b) (height image + b * 2))
    with (height image + b)%nat by lia.
  replace (Nat.min b (width image + b * 2)) with b by lia.
  replace (Nat.min (width image + b * 2 - b) (width image + b * 2))
    with (width image + b)%nat by lia.
  replace (height image + b - b)%nat with (height image) by lia.
  replace (width image + b - b)%nat with (width image) by lia.
  rewrite !Nat.eqb_refl. cbn [orb andb].
  eexists. split; [reflexivity|]. split; [reflexivity|].
  intros y x. cbn [data]. unfold src_index, id.
  destruct (Nat.leb_spec b y); destruct (Nat.ltb_spec y (height image + b));
    destruct (Nat.leb_spec b x); destruct (Nat.ltb_spec x (width image + b));
    cbn [andb]; try reflexivity.
  destruct (Nat.eqb_spec (height image) 1); destruct (Nat.eqb_spec (width image) 1);
    f_equal; lia.
Qed.



(** X4: a border of width zero is refused: the slice [0:-0] is empty, and
    an image with two or more rows or columns cannot be assigned to it. *)
Theorem border_zero_raises (image : ndarray) (color : pixel) :
  (2 <= height image)%nat \/ (2 <= width image)%nat ->
  add_border_c image 0 color = Raise ValueError /\
  add_border image 0 = Raise ValueError.
Proof.
  intros Hbig. unfold add_border_c, add_border, setitem_slice, slice_bounds, neg_stop, broadcasts.
  cbn [Nat.eqb Nat.min Nat.sub height width np_full np_zeros].
  destruct (Nat.eqb_spec (height image) 0); destruct (Nat.eqb_spec (height image) 1);
    destruct (Nat.eqb_spec (width image) 0); destruct (Nat.eqb_spec (width image) 1);
    cbn [orb andb]; try lia; split; reflexivity.
Qed.

Lemma border_zero_raises_witness :
  add_border_c (np_full 2 1 (1, 2, 3)) 0 (0, 0, 0) = Raise ValueError /\
  add_border (np_full 2 1 (1, 2, 3)) 0 = Raise ValueError.
Proof. apply (border_zero_raises (np_full 2 1 (1, 2, 3)) (0, 0, 0)). left. cbn. lia. Defined.


Lemma block_row (i j n : nat) : (j < n)%nat -> ((i * n + j) / n)%nat = i.
Proof.
  intros Hj. rewrite Nat.div_add_l by lia. rewrite Nat.div_small by lia. lia.
Qed.

Lemma same_block (H i i' y : nat) :
  (y < H)%nat -> (i * H <= i' * H + y)%nat -> (i' * H + y < (i + 1) * H)%nat -> i' = i.
Proof. intros Hy Hlo Hhi. nia. Qed.

Section Vertical.
Import Collate.
Variables (pages : list ndarray) (num_rows num_cols : nat) (background_color : pixel).
Variables h w : nat.
Hypothesis pages_shape : forall p, p ∈ pages -> shape p = (h, w).
Hypothesis pages_fit : (length pages <= num_rows * num_cols)%nat.

(** The page loaded for cell [k] by the vertical variant. *)
Lemma cell_bpage_vertical k :
  (k < num_rows * num_cols)%nat ->
  exists bpage,
    match ((Some <$> pages) ++
           replicate (Z.to_nat (Z.of_nat (num_rows * num_cols) - Z.of_nat (length pages)))
             None) !! k with
    | Some (Some page) => add_border page 1
    | Some None => Return (np_full (h + 2) (w + 2) background_color)
    | None => Raise IndexError
    end = Return bpage /\
    height bpage = (h + 2)%nat /\ width bpage = (w + 2)%nat /\
    forall y x, data bpage y x = data (cell_image pages background_color h w k) y x.
Proof.
  intros Hk. rewrite (arr_pages_lookup pages num_rows num_cols pages_fit k Hk).
  unfold cell_image. destruct (pages !! k) as [p|] eqn:Ep.
  - assert (Hp : shape p = (h, w)).
    { apply pages_shape. apply list_elem_of_lookup. eauto. }
    injection Hp as Hh Hw.
    destruct (border_assign (np_zeros (height p + 1 * 2) (width p + 1 * 2)) p 1
                ltac:(lia) eq_refl eq_refl) as (b & Hb & Hbs & Hdata).
    exists b. split; [exact Hb|]. injection Hbs as Hbh Hbw.
    split; [lia|]. split; [lia|].
    intros y x. rewrite Hdata. unfold bordered. cbn [data np_zeros].
    destruct (Nat.leb_spec 1 y); destruct (Nat.ltb_spec y (height p + 1));
      destruct (Nat.leb_spec y (height p));
      destruct (Nat.leb_spec 1 x); destruct (Nat.ltb_spec x (width p + 1));
      destruct (Nat.leb_spec x (width p)); cbn [andb]; try lia; reflexivity.
  - eexists. split; [reflexivity|]. cbn. auto.
Qed.

(** The cells that the vertical variant has filled when it has handled the
    first [n] pages: page [k] sits in block row [k mod num_cols] and block
    column [k / num_cols]. *)
Let filled_vertical (canvas : ndarray) (n : nat) : Prop :=
  forall k y x, (k < n)%nat -> (y < h + 2)%nat -> (x < w + 2)%nat ->
    data canvas (k mod num_cols * (h + 2) + y) (k / num_cols * (w + 2) + x) =
      astype_uint8 (data (cell_image pages background_color h w k) y x).

Lemma cell_step_vertical i j canvas :
  (i < num_rows)%nat -> (j < num_cols)%nat ->
  shape canvas = ((num_cols * (h + 2))%nat, (num_rows * (w + 2))%nat) ->
  filled_vertical canvas (i * num_cols + j) ->
  exists canvas',
    (bpage ← match ((Some <$> pages) ++
                    replicate (Z.to_nat (Z.of_nat (num_rows * num_cols)
                                         - Z.of_nat (length pages))) None)
                   !! (i * num_cols + j)%nat with
             | Some (Some page) => add_border page 1
             | Some None => Return (np_full (h + 2) (w + 2) background_color)
             | None => Raise IndexError
             end;
     setitem_slice astype_uint8 canvas
       (j * (h + 2)) ((j + 1) * (h + 2)) (i * (w + 2)) ((i + 1) * (w + 2)) bpage)
    = Return canvas' /\
    shape canvas' = ((num_cols * (h + 2))%nat, (num_rows * (w + 2))%nat) /\
    filled_vertical canvas' (i * num_cols + S j).
Proof.
  intros Hi Hj Hshape Hfilled. injection Hshape as Hch Hcw.
  assert (Hk : (i * num_cols + j < num_rows * num_cols)%nat) by nia.
  destruct (cell_bpage_vertical _ Hk) as (bpage & -> & Hbh & Hbw & Hdata).
  cbn [mbind pyresult_bind].
  rewrite setitem_slice_inside by nia.
  eexists. split; [reflexivity|].
  split; [unfold shape; cbn [height width]; rewrite Hch, Hcw; reflexivity|].
  intros k y x Hklt Hy Hx. cbn [data].
  assert (Hcols : num_cols <> 0%nat) by lia.
  pose proof (Nat.div_mod_eq k num_cols) as Hdm.
  pose proof (Nat.mod_upper_bound k num_cols Hcols) as Hmod.
  destruct (Nat.eq_dec k (i * num_cols + j)%nat) as [->|Hne].
  - rewrite (block_row i j num_cols Hj), (cell_col i j num_cols Hj).
    destruct (Nat.leb_spec (j * (h + 2)) (j * (h + 2) + y)); [|lia].
    destruct (Nat.ltb_spec (j * (h + 2) + y) ((j + 1) * (h + 2))); [|lia].
    destruct (Nat.leb_spec (i * (w + 2)) (i * (w + 2) + x)); [|lia].
    destruct (Nat.ltb_spec (i * (w + 2) + x) ((i + 1) * (w + 2))); [|lia].
    cbn [andb]. rewrite Hdata. do 2 f_equal; lia.
  - assert (Hout :
      (j * (h + 2) <=? k mod num_cols * (h + 2) + y)%nat &&
      (k mod num_cols * (h + 2) + y <? (j + 1) * (h + 2))%nat &&
      (i * (w + 2) <=? k / num_cols * (w + 2) + x)%nat &&
      (k / num_cols * (w + 2) + x <? (i + 1) * (w + 2))%nat = false).
    { apply not_true_is_false. intros Hin.
      apply andb_prop in Hin as [Hin H4]. apply andb_prop in Hin as [Hin H3].
      apply andb_prop in Hin as [H1 H2].
      apply Nat.leb_le in H1, H3. apply Nat.ltb_lt in H2, H4.
      pose proof (same_block _ _ _ _ Hy H1 H2) as Ej.
      pose proof (same_block _ _ _ _ Hx H3 H4) as Ei.
      apply Hne. rewrite Hdm at 1. rewrite Ei, Ej. lia. }
    rewrite Hout. apply Hfilled; [|assumption..].
    lia.
Qed.

Lemma vertical_filled :
  pages <> [] ->
  exists canvas,
    __arrange_pages_vertical pages num_rows num_cols background_color = Return canvas /\
    shape canvas = ((num_cols * (h + 2))%nat, (num_rows * (w + 2))%nat) /\
    filled_vertical canvas (num_rows * num_cols).
Proof.
  intros Hne. unfold __arrange_pages_vertical.
  assert (Hhead : exists p0, p0 ∈ pages /\
            match pages with [] => Raise IndexError | p :: _ => Return p end = Return p0).
  { revert Hne. generalize pages. intros [|p0 rest] Hne; [contradiction|].
    exists p0. split; [apply list_elem_of_here | reflexivity]. }
  destruct Hhead as (p0 & Hin & ->). cbn [mbind pyresult_bind].
  pose proof (pages_shape p0 Hin) as Hp0. injection Hp0 as Hh Hw.
  destruct (add_border_shape p0) as (t & -> & Ht). cbn [mbind pyresult_bind].
  rewrite Ht, Hh, Hw.
  unfold reshape. rewrite (arr_pages_length pages num_rows num_cols pages_fit), Nat.eqb_refl.
  cbn [mbind pyresult_bind].
  pose (P := fun (i : nat) (c : ndarray) =>
    shape c = ((num_cols * (h + 2))%nat, (num_rows * (w + 2))%nat) /\
    filled_vertical c (i * num_cols)).
  match goal with
  | |- exists _, for_range _ _ ?body ?c = _ /\ _ =>
      destruct (for_range_inv P num_rows 0 body c) as (c' & Hrun & Hc' & Hf')
  end.
  - split; [reflexivity|]. intros k y x Hk. lia.
  - intros i c Hi [Hc Hf].
    pose (Q := fun (j : nat) (c : ndarray) =>
      shape c = ((num_cols * (h + 2))%nat, (num_rows * (w + 2))%nat) /\
      filled_vertical c (i * num_cols + j)).
    match goal with
    | |- exists _, for_range _ _ ?body ?c = _ /\ _ =>
        destruct (for_range_inv Q num_cols 0 body c) as (c1 & Hrun1 & Hc1 & Hf1)
    end.
    + split; [exact Hc|]. rewrite Nat.add_0_r. exact Hf.
    + intros j c2 Hj [Hc2 Hf2].
      destruct (cell_step_vertical i j c2 ltac:(lia) ltac:(lia) Hc2 Hf2) as (c3 & E & Hc3 & Hf3).
      exists c3. split; [exact E|]. split; assumption.
    + exists c1. split; [exact Hrun1|]. split; [exact Hc1|].
      replace (S i * num_cols)%nat with (i * num_cols + (0 + num_cols))%nat by lia. exact Hf1.
  - exists c'. split; [exact Hrun|]. split; [exact Hc'|].
    rewrite Nat.add_0_l in Hf'. exact Hf'.
Qed.
End Vertical.

(** X7: for a non-empty list of 8-bit tiles of one size [h] by [w] and a
    grid with room for them, the vertical variant returns a canvas with
    [num_cols] block rows and [num_rows] block columns, of shape
    [(num_cols * (h + 2), num_rows * (w + 2))] and not the documented
    [(num_rows * (h + 2), num_cols * (w + 2))]; tile [k] sits in block row
    [k mod num_cols] and block column [k / num_cols], and the cells of the
    missing pages show the background colour. *)
Theorem vertical_grid_transposed (pages : list ndarray) (num_rows num_cols : nat)
    (background_color : pixel) (h w : nat) :
  pages <> [] ->
  (forall p, p ∈ pages -> shape p = (h, w) /\ uint8_image p) ->
  is_uint8 background_color ->
  (length pages <= num_rows * num_cols)%nat ->
  exists canvas,
    Collate.__arrange_pages_vertical pages num_rows num_cols background_color
      = Return canvas /\
    shape canvas = ((num_cols * (h + 2))%nat, (num_rows * (w + 2))%nat) /\
    (forall k tile, pages !! k = Some tile ->
       forall y x, (y < h + 2)%nat -> (x < w + 2)%nat ->
         data canvas (k mod num_cols * (h + 2) + y) (k / num_cols * (w + 2) + x) =
           data (bordered tile) y x) /\
    (forall k, (length pages <= k < num_rows * num_cols)%nat ->
       forall y x, (y < h + 2)%nat -> (x < w + 2)%nat ->
         data canvas (k mod num_cols * (h + 2) + y) (k / num_cols * (w + 2) + x) =
           background_color).
Proof.
  intros Hne Hpages Hbg Hfit.
  destruct (vertical_filled pages num_rows num_cols background_color h w) as
    (canvas & Hrun & Hshape & Hfilled); [intros p Hp; apply Hpages, Hp | exact Hfit | exact Hne |].
  exists canvas. split; [exact Hrun|]. split; [exact Hshape|]. split.
  - intros k tile Hk y x Hy Hx.
    assert (Hlt : (k < length pages)%nat) by (apply lookup_lt_is_Some; eauto).
    rewrite Hfilled by lia. unfold cell_image. rewrite Hk.
    apply astype_uint8_id, bordered_uint8, Hpages. apply list_elem_of_lookup. eauto.
  - intros k Hk y x Hy Hx. rewrite Hfilled by lia. unfold cell_image.
    rewrite lookup_ge_None_2 by lia. cbn [np_full data]. apply astype_uint8_id, Hbg.
Qed.


Lemma vertical_grid_transposed_witness :
  exists canvas,
    Collate.__arrange_pages_vertical
      [np_full 1 2 (10, 20, 30); np_full 1 2 (40, 50, 60); np_full 1 2 (70, 80, 90)]
      1 3 (255, 255, 255) = Return canvas /\
    shape canvas = ((3 * (1 + 2))%nat, (1 * (2 + 2))%nat) /\
    (forall k tile,
       [np_full 1 2 (10, 20, 30); np_full 1 2 (40, 50, 60); np_full 1 2 (70, 80, 90)] !! k
         = Some tile ->
       forall y x, (y < 1 + 2)%nat -> (x < 2 + 2)%nat ->
         data canvas (k mod 3 * (1 + 2) + y) (k / 3 * (2 + 2) + x) =
           data (bordered tile) y x) /\
    (forall k,
       (length [np_full 1 2 (10, 20, 30)%Z; np_full 1 2 (40, 50, 60)%Z;
                np_full 1 2 (70, 80, 90)%Z] <= k < 1 * 3)%nat ->
       forall y x, (y < 1 + 2)%nat -> (x < 2 + 2)%nat ->
         data canvas (k mod 3 * (1 + 2) + y) (k / 3 * (2 + 2) + x) = (255, 255, 255)).
Proof.
  apply (vertical_grid_transposed
           [np_full 1 2 (10, 20, 30); np_full 1 2 (40, 50, 60); np_full 1 2 (70, 80, 90)]
           1 3 (255, 255, 255) 1 2).
  - discriminate.
  - intros p Hp. rewrite !elem_of_cons in Hp.
    destruct Hp as [->|[->|[->|Hp]]];
      [| | | exfalso; exact (proj1 (elem_of_nil p) Hp)];
      (split; [reflexivity | intros y x _ _; cbn; lia]).
  - cbn. lia.
  - cbn. lia.
Defined.

(** One row of three pages: the horizontal arrangement is 3 pixels high and
    12 wide, the vertical one 9 high and 4 wide with the pages one under the
    other. *)
Example one_row_both_ways :
  match arrange_pages_horizontal
          [np_full 1 2 (10, 20, 30); np_full 1 2 (40, 50, 60); np_full 1 2 (70, 80, 90)]
          1 3 (255, 255, 255),
        Collate.__arrange_pages_vertical
          [np_full 1 2 (10, 20, 30); np_full 1 2 (40, 50, 60); np_full 1 2 (70, 80, 90)]
          1 3 (255, 255, 255) with
  | Return c, Return v =>
      Some (shape c, [data c 1 1; data c 1 5; data c 1 9],
            shape v, [data v 1 1; data v 4 1; data v 7 1])
  | _, _ => None
  end =
  Some ((3%nat, 12%nat), [(10, 20, 30); (40, 50, 60); (70, 80, 90)],
        (9%nat, 4%nat), [(10, 20, 30); (40, 50, 60); (70, 80, 90)]).
Proof. vm_compute. reflexivity. Qed.

(** *** Failures of [arrange_pages_horizontal] *)

Lemma for_range_cases {A : Type} (P : A -> Prop) (e : pyexc) n start
    (body : nat -> A -> pyresult A) a :
  P a ->
  (forall i a, (start <= i < start + n)%nat -> P a ->
     (exists a', body i a = Return a' /\ P a') \/ body i a = Raise e) ->
  (exists a', for_range n start body a = Return a' /\ P a') \/
  for_range n start body a = Raise e.
Proof.
  revert start a. induction n as [|n IH]; intros start a Ha Hbody.
  - left. exists a. split; [reflexivity | exact Ha].
  - cbn [for_range]. destruct (Hbody start a ltac:(lia) Ha) as [(a1 & -> & Ha1) | ->].
    + cbn [mbind pyresult_bind]. apply IH; [exact Ha1|].
      intros i b Hi Hb. apply Hbody; [lia | exact Hb].
    + right. reflexivity.
Qed.

(** A loop one of whose iterations raises [e] whatever the state, the others
    returning or raising [e] as well, raises [e]. *)
Lemma for_range_raises {A : Type} (P : A -> Prop) (e : pyexc) n start
    (body : nat -> A -> pyresult A) a k :
  P a ->
  (forall i a, (start <= i < start + n)%nat -> P a ->
     (exists a', body i a = Return a' /\ P a') \/ body i a = Raise e) ->
  (start <= k < start + n)%nat ->
  (forall a, P a -> body k a = Raise e) ->
  for_range n start body a = Raise e.
Proof.
  revert start a. induction n as [|n IH]; intros start a Ha Hbody Hk Hraise; [lia|].
  cbn [for_range]. destruct (Nat.eq_dec start k) as [->|Hne].
  - rewrite (Hraise a Ha). reflexivity.
  - destruct (Hbody start a ltac:(lia) Ha) as [(a1 & -> & Ha1) | ->]; [|reflexivity].
    cbn [mbind pyresult_bind]. apply IH; [exact Ha1 | | lia | exact Hraise].
    intros i b Hi Hb. apply Hbody; [lia | exact Hb].
Qed.

(** An assignment to a slice returns an array of the same shape or raises
    [ValueError]. *)
Lemma setitem_slice_cases cast a r0 r1 c0 c1 src :
  (exists a', setitem_slice cast a r0 r1 c0 c1 src = Return a' /\ shape a' = shape a) \/
  setitem_slice cast a r0 r1 c0 c1 src = Raise ValueError.
Proof.
  unfold setitem_slice, slice_bounds.
  destruct (broadcasts (height src) (Nat.min r1 (height a) - Nat.min r0 (height a)) &&
            broadcasts (width src) (Nat.min c1 (width a) - Nat.min c0 (width a))).
  - left. eexists. split; reflexivity.
  - right. reflexivity.
Qed.

(** An assignment to a cell of the grid of a page that has not the size of
    the cell raises. *)
Lemma setitem_cell_mismatch cast a i j H W src :
  (2 <= H)%nat -> (2 <= W)%nat ->
  ((i + 1) * H <= height a)%nat -> ((j + 1) * W <= width a)%nat ->
  (height src, width src) <> (H, W) ->
  (2 <= height src)%nat -> (2 <= width src)%nat ->
  setitem_slice cast a (i * H) ((i + 1) * H) (j * W) ((j + 1) * W) src = Raise ValueError.
Proof.
  intros HH HW Hr Hc Hne Hsh Hsw. unfold setitem_slice, slice_bounds, broadcasts.
  rewrite !Nat.min_l by lia.
  replace ((i + 1) * H - i * H)%nat with H by lia.
  replace ((j + 1) * W - j * W)%nat with W by lia.
  destruct (Nat.eqb_spec (height src) H); destruct (Nat.eqb_spec (height src) 1);
    destruct (Nat.eqb_spec (width src) W); destruct (Nat.eqb_spec (width src) 1);
    cbn [orb andb]; try lia; try reflexivity.
  exfalso. apply Hne. congruence.
Qed.

Section Failures.
Variables (pages : list ndarray) (num_rows num_cols : nat) (background_color : pixel).
Variables H W : nat.
Hypothesis pages_fit : (length pages <= num_rows * num_cols)%nat.
Hypotheses (H_big : (2 <= H)%nat) (W_big : (2 <= W)%nat).

Let arr : list (option ndarray) :=
  (Some <$> pages) ++
  replicate (Z.to_nat (Z.of_nat (num_rows * num_cols) - Z.of_nat (length pages))) None.

Let cell_body (i j : nat) (canvas : ndarray) : pyresult ndarray :=
  bpage ← match arr !! (i * num_cols + j)%nat with
          | Some (Some page) => add_border_c page 1 (0, 0, 0)
          | Some None => Return (np_full H W background_color)
          | None => Raise IndexError
          end;
  setitem_slice astype_uint8 canvas (i * H) ((i + 1) * H) (j * W) ((j + 1) * W) bpage.

Let grid_shape (canvas : ndarray) : Prop :=
  shape canvas = ((num_rows * H)%nat, (num_cols * W)%nat).

Lemma cell_body_cases i j canvas :
  (i < num_rows)%nat -> (j < num_cols)%nat -> grid_shape canvas ->
  (exists canvas', cell_body i j canvas = Return canvas' /\ grid_shape canvas') \/
  cell_body i j canvas = Raise ValueError.
Proof.
  intros Hi Hj Hc. unfold cell_body, arr.
  rewrite (arr_pages_lookup pages num_rows num_cols pages_fit) by nia.
  destruct (pages !! (i * num_cols + j)%nat) as [p|].
  - destruct (add_border_c_bordered p (0, 0, 0)) as (b & -> & _).
    cbn [mbind pyresult_bind].
    destruct (setitem_slice_cases astype_uint8 canvas (i * H) ((i + 1) * H)
                (j * W) ((j + 1) * W) b) as [(c' & -> & Hc') | ->]; [left | right; reflexivity].
    exists c'. split; [reflexivity|]. unfold grid_shape. rewrite Hc'. exact Hc.
  - cbn [mbind pyresult_bind].
    destruct (setitem_slice_cases astype_uint8 canvas (i * H) ((i + 1) * H)
                (j * W) ((j + 1) * W) (np_full H W background_color))
      as [(c' & -> & Hc') | ->]; [left | right; reflexivity].
    exists c'. split; [reflexivity|]. unfold grid_shape. rewrite Hc'. exact Hc.
Qed.

Lemma cell_body_mismatch k p canvas :
  (num_cols <> 0)%nat ->
  pages !! k = Some p -> (height p + 2, width p + 2)%nat <> (H, W) -> grid_shape canvas ->
  cell_body (k / num_cols) (k mod num_cols) canvas = Raise ValueError.
Proof.
  intros Hcols Hk Hne Hc. unfold cell_body, arr.
  assert (Hlt : (k < length pages)%nat) by (apply lookup_lt_is_Some; eauto).
  pose proof (Nat.div_mod_eq k num_cols) as Hdm.
  pose proof (Nat.mod_upper_bound k num_cols Hcols) as Hmod.
  replace (k / num_cols * num_cols + k mod num_cols)%nat with k by lia.
  rewrite (arr_pages_lookup pages num_rows num_cols pages_fit) by lia. rewrite Hk.
  destruct (add_border_c_bordered p (0, 0, 0)) as (b & -> & Hbh & Hbw & _).
  cbn [mbind pyresult_bind]. injection Hc as Hch Hcw.
  apply setitem_cell_mismatch; try lia.
  - assert (k / num_cols < num_rows)%nat by (apply Nat.Div0.div_lt_upper_bound; lia). nia.
  - nia.
  - rewrite Hbh, Hbw. exact Hne.
Qed.

Lemma grid_loops_mismatch k p :
  pages !! k = Some p -> (height p + 2, width p + 2)%nat <> (H, W) ->
  for_range num_rows 0 (fun i canvas =>
    for_range num_cols 0 (fun j canvas => cell_body i j canvas) canvas)
    (np_zeros (num_rows * H) (num_cols * W)) = Raise ValueError.
Proof.
  intros Hk Hne.
  assert (Hlt : (k < length pages)%nat) by (apply lookup_lt_is_Some; eauto).
  assert (Hcols : (num_cols <> 0)%nat) by (intros ->; lia).
  pose proof (Nat.mod_upper_bound k num_cols Hcols) as Hmod.
  assert (Hrow : (k / num_cols < num_rows)%nat) by (apply Nat.Div0.div_lt_upper_bound; lia).
  apply (for_range_raises grid_shape ValueError num_rows 0 _ _ (k / num_cols)).
  - reflexivity.
  - intros i c Hi Hc. apply (for_range_cases grid_shape); [exact Hc|].
    intros j c' Hj Hc'. apply cell_body_cases; [lia | lia | exact Hc'].
  - lia.
  - intros c Hc.
    apply (for_range_raises grid_shape ValueError num_cols 0 _ _ (k mod num_cols)).
    + exact Hc.
    + intros j c' Hj Hc'. apply cell_body_cases; [lia | lia | exact Hc'].
    + lia.
    + intros c' Hc'. apply (cell_body_mismatch k p); assumption.
Qed.
End Failures.

(** X6: a tile whose size is not that of the first tile makes
    [arrange_pages_horizontal] raise [ValueError], in a grid with room for
    all tiles: no canvas is returned. *)
Theorem mismatched_tile_raises (pages : list ndarray) (num_rows num_cols : nat)
    (background_color : pixel) (first tile : ndarray) (k : nat) :
  pages !! 0%nat = Some first -> pages !! k = Some tile ->
  shape tile <> shape first ->
  (length pages <= num_rows * num_cols)%nat ->
  arrange_pages_horizontal pages num_rows num_cols background_color = Raise ValueError.
Proof.
  intros H0 Hk Hne Hfit. unfold arrange_pages_horizontal.
  destruct pages as [|p0 rest] eqn:Epages; [discriminate|].
  cbn in H0. injection H0 as ->. rewrite <- Epages in *.
  cbn [mbind pyresult_bind].
  destruct (add_border_shape first) as (t & -> & Ht). cbn [mbind pyresult_bind].
  rewrite Ht. unfold reshape.
  rewrite (arr_pages_length pages num_rows num_cols Hfit), Nat.eqb_refl.
  cbn [mbind pyresult_bind].
  apply (grid_loops_mismatch pages num_rows num_cols background_color
           (height first + 2) (width first + 2) Hfit ltac:(lia) ltac:(lia) k tile Hk).
  intros E. apply Hne. unfold shape. injection E as E1 E2. f_equal; lia.
Qed.

Lemma mismatched_tile_raises_witness :
  arrange_pages_horizontal [np_full 1 1 (1, 2, 3); np_full 1 1 (1, 2, 3); np_full 1 2 (1, 2, 3)]
    2 2 (255, 255, 255) = Raise ValueError.
Proof.
  apply (mismatched_tile_raises _ 2 2 (255, 255, 255)
           (np_full 1 1 (1, 2, 3)) (np_full 1 2 (1, 2, 3)) 2);
    [reflexivity | reflexivity | discriminate | cbn; lia].
Defined.

(** X5: more tiles than cells make both arrangements raise [ValueError] at
    the reshape, whatever the tiles are. *)
Theorem too_many_tiles_raise (pages : list ndarray) (num_rows num_cols : nat)
    (background_color : pixel) :
  (num_rows * num_cols < length pages)%nat ->
  arrange_pages_horizontal pages num_rows num_cols background_color = Raise ValueError /\
  Collate.__arrange_pages_vertical pages num_rows num_cols background_color
    = Raise ValueError.
Proof.
  intros Hmany. unfold arrange_pages_horizontal, Collate.__arrange_pages_vertical.
  destruct pages as [|p0 rest] eqn:Epages; [cbn in Hmany; lia|]. rewrite <- Epages in *.
  cbn [mbind pyresult_bind].
  destruct (add_border_shape p0) as (t & -> & Ht). cbn [mbind pyresult_bind].
  rewrite Ht. unfold reshape.
  replace (Z.to_nat (Z.of_nat (num_rows * num_cols) - Z.of_nat (length pages))) with 0%nat by lia.
  cbn [replicate]. rewrite app_nil_r, length_fmap.
  destruct (Nat.eqb_spec (length pages) (num_rows * num_cols)); [lia|].
  split; reflexivity.
Qed.

Lemma too_many_tiles_raise_witness :
  arrange_pages_horizontal [np_full 1 1 (1, 2, 3); np_full 3 1 (1, 2, 3); np_full 1 1 (1, 2, 3)]
    1 2 (0, 0, 0) = Raise ValueError /\
  Collate.__arrange_pages_vertical
    [np_full 1 1 (1, 2, 3); np_full 3 1 (1, 2, 3); np_full 1 1 (1, 2, 3)]
    1 2 (0, 0, 0) = Raise ValueError.
Proof. apply too_many_tiles_raise. cbn. lia. Defined.





(** A tile of 16-bit values and a background colour beyond the bytes: the
    canvas holds them modulo 256. *)
Example grid_wraps_channels :
  match arrange_pages_horizontal [np_full 1 1 (256, 65535, 3)] 1 2 (300, -1, 511) with
  | Return canvas => data canvas 1 1 = (0, 255, 3) /\ data canvas 1 4 = (44, 255, 255)
  | Raise _ => False
  end.
Proof. vm_compute. auto. Qed.

End CanvasExtra.

(** ** The rest of [collate_pages.py] *)

Module CollateSpec.
Import Canvas CanvasSpec Collate.

(** *** Sorting the page files by stem *)

Lemma stem_leb_trans a b c : stem_leb a b -> stem_leb b c -> stem_leb a c.
Proof.
  unfold stem_leb. intros H1 H2.
  apply Is_true_true. apply Is_true_true in H1, H2.
  exact (@transitivity _ String.le _ _ _ _ H1 H2).
Qed.

Lemma stem_leb_total a b : stem_leb a b \/ stem_leb b a.
Proof. apply String.leb_total. Qed.

Lemma insert_by_stem_perm x l : insert_by_stem x l ≡ₚ x :: l.
Proof.
  induction l as [|y l IH]; cbn [insert_by_stem]; [reflexivity|].
  destruct (String.leb (fst x) (fst y)); [reflexivity|].
  rewrite IH. apply Permutation_swap.
Qed.

Lemma sort_by_stem_perm l : sort_by_stem l ≡ₚ l.
Proof.
  induction l as [|x l IH]; [reflexivity|].
  cbn [sort_by_stem foldr]. fold (sort_by_stem l).
  rewrite insert_by_stem_perm, IH. reflexivity.
Qed.

Lemma sort_by_stem_length l : length (sort_by_stem l) = length l.
Proof. apply Permutation_length, sort_by_stem_perm. Qed.

Lemma insert_by_stem_sorted x l :
  StronglySorted stem_leb l -> StronglySorted stem_leb (insert_by_stem x l).
Proof.
  induction l as [|y l IH]; intros Hs; cbn [insert_by_stem].
  - repeat constructor.
  - apply StronglySorted_inv in Hs as [Hl Hy].
    destruct (String.leb (fst x) (fst y)) eqn:E.
    + constructor; [constructor; assumption|].
      constructor; [exact E|].
      eapply Forall_impl; [exact Hy|]. intros z Hz. exact (stem_leb_trans x y z E Hz).
    + constructor; [apply IH, Hl|].
      rewrite insert_by_stem_perm. constructor; [|exact Hy].
      destruct (stem_leb_total x y) as [H|H]; [unfold stem_leb in H; congruence | exact H].
Qed.

Lemma sort_by_stem_sorted l : StronglySorted stem_leb (sort_by_stem l).
Proof.
  induction l as [|x l IH]; [constructor|].
  cbn [sort_by_stem foldr]. apply insert_by_stem_sorted, IH.
Qed.


(** The sort is stable: the files of one stem keep the order in which
    [glob] listed them. *)
Lemma insert_by_stem_stable (s : string) x l :
  filter (fun f => fst f = s) (insert_by_stem x l) = filter (fun f => fst f = s) (x :: l).
Proof.
  induction l as [|y l IH]; cbn [insert_by_stem]; [reflexivity|].
  destruct (String.leb (fst x) (fst y)) eqn:E; [reflexivity|].
  rewrite filter_cons, IH, !filter_cons.
  destruct (decide (fst y = s)) as [Hy|Hy]; destruct (decide (fst x = s)) as [Hx|Hx];
    try reflexivity.
  exfalso. assert (Hxy : fst x = fst y) by congruence.
  destruct (String.leb_total (fst x) (fst y)) as [H|H]; [congruence|].
  rewrite Hxy in E, H. congruence.
Qed.

Lemma sort_by_stem_stable (s : string) l :
  filter (fun f => fst f = s) (sort_by_stem l) = filter (fun f => fst f = s) l.
Proof.
  induction l as [|x l IH]; [reflexivity|].
  cbn [sort_by_stem foldr]. fold (sort_by_stem l).
  rewrite insert_by_stem_stable, !filter_cons, IH. reflexivity.
Qed.

(** *** [collate_pdf_by_sha] *)

(** X8: [collate_pdf_by_sha] saves nothing and raises [IndexError] when the
    commit has no page file (or no directory), and [AssertionError] when it
    has more page files than the grid has cells; the directory of collated
    images is as before in both cases. *)
Theorem collate_failures (pdf_pages : pages_dir) (sha : string) (rows cols : nat)
    (collated : collated_dir) :
  (default [] (pdf_pages !! sha) = [] ->
     collate_pdf_by_sha pdf_pages sha rows cols collated = (Raise IndexError, collated)) /\
  ((rows * cols < length (default [] (pdf_pages !! sha)))%nat ->
     collate_pdf_by_sha pdf_pages sha rows cols collated = (Raise AssertionError, collated)).
Proof.
  unfold collate_pdf_by_sha. split.
  - intros ->. reflexivity.
  - intros Hmany. rewrite sort_by_stem_length.
    destruct (Nat.leb_spec (length (default [] (pdf_pages !! sha))) (rows * cols));
      [lia | reflexivity].
Qed.

(** X9: for a commit with page files of one size [h] by [w], 8-bit, and a
    grid with room for them, [collate_pdf_by_sha] saves under the commit a
    canvas of shape [(rows * (h + 2), cols * (w + 2))] whose cell [k], in
    row-major order, shows the page that is [k]-th by stem (pages of one
    stem in the order of the listing), the cells after the last page being
    grey (200, 200, 200); the other collated images are as before. *)
Theorem collate_saves_sorted_grid (pdf_pages : pages_dir) (sha : string) (rows cols : nat)
    (collated : collated_dir) (files : list page_file) (h w : nat) :
  pdf_pages !! sha = Some files -> files <> [] ->
  (forall f, f ∈ files -> shape (snd f) = (h, w) /\ uint8_image (snd f)) ->
  (length files <= rows * cols)%nat ->
  exists canvas sorted,
    collate_pdf_by_sha pdf_pages sha rows cols collated =
      (Return tt, <[sha := canvas]> collated) /\
    sorted ≡ₚ files /\ StronglySorted stem_leb sorted /\
    (forall s, filter (fun f => fst f = s) sorted = filter (fun f => fst f = s) files) /\
    shape canvas = ((rows * (h + 2))%nat, (cols * (w + 2))%nat) /\
    (forall k f, sorted !! k = Some f ->
       forall y x, (y < h + 2)%nat -> (x < w + 2)%nat ->
         data canvas (k / cols * (h + 2) + y) (k mod cols * (w + 2) + x) =
           data (bordered (snd f)) y x) /\
    (forall k, (length files <= k < rows * cols)%nat ->
       forall y x, (y < h + 2)%nat -> (x < w + 2)%nat ->
         data canvas (k / cols * (h + 2) + y) (k mod cols * (w + 2) + x) = (200, 200, 200)).
Proof.
  intros Hdir Hne Hfiles Hfit. unfold collate_pdf_by_sha. rewrite Hdir.
  change (default [] (Some files)) with files. cbv zeta.
  set (sorted := sort_by_stem files).
  assert (Hperm : sorted ≡ₚ files) by apply sort_by_stem_perm.
  assert (Hlen : length sorted = length files) by apply sort_by_stem_length.
  assert (Hin : forall p, p ∈ snd <$> sorted -> shape p = (h, w) /\ uint8_image p).
  { intros p Hp. apply list_elem_of_fmap in Hp as (f & -> & Hf).
    apply Hfiles. rewrite <- Hperm. exact Hf. }
  rewrite Hlen. destruct (Nat.leb_spec (length files) (rows * cols)); [|lia].
  destruct (arrange_filled (snd <$> sorted) rows cols (200, 200, 200) h w) as
    (canvas & -> & Hshape & Hfilled).
  { intros p Hp. apply Hin, Hp. }
  { rewrite length_fmap. lia. }
  { intros E. apply fmap_nil_inv in E. apply Hne.
    apply Permutation_nil_r. rewrite <- Hperm, E. reflexivity. }
  exists canvas, sorted. split; [reflexivity|]. split; [exact Hperm|].
  split; [apply sort_by_stem_sorted|]. split; [intros s; apply sort_by_stem_stable|].
  split; [exact Hshape|]. split.
  - intros k f Hk y x Hy Hx.
    assert (Hlt : (k < length sorted)%nat) by (apply lookup_lt_is_Some; eauto).
    rewrite Hfilled by lia. unfold cell_image. rewrite list_lookup_fmap, Hk.
    cbn [fmap option_fmap option_map].
    apply astype_uint8_id, bordered_uint8, Hin. apply list_elem_of_fmap.
    exists f. split; [reflexivity|]. apply list_elem_of_lookup. eauto.
  - intros k Hk y x Hy Hx. rewrite Hfilled by lia. unfold cell_image.
    rewrite lookup_ge_None_2 by (rewrite length_fmap; lia).
    cbn [np_full data]. apply astype_uint8_id. cbn. lia.
Qed.


Lemma collate_saves_sorted_grid_witness :
  exists canvas sorted,
    collate_pdf_by_sha
      {["abc" := [("pdf-2", np_full 1 1 (40, 50, 60)); ("pdf-1", np_full 1 1 (10, 20, 30))]]}
      "abc" 1 3 ∅ = (Return tt, <["abc" := canvas]> ∅) /\
    sorted ≡ₚ [("pdf-2", np_full 1 1 (40, 50, 60)); ("pdf-1", np_full 1 1 (10, 20, 30))] /\
    StronglySorted stem_leb sorted /\
    (forall s, filter (fun f => fst f = s) sorted =
               filter (fun f => fst f = s)
                 [("pdf-2", np_full 1 1 (40, 50, 60)); ("pdf-1", np_full 1 1 (10, 20, 30))]) /\
    shape canvas = ((1 * (1 + 2))%nat, (3 * (1 + 2))%nat) /\
    (forall k f, sorted !! k = Some f ->
       forall y x, (y < 1 + 2)%nat -> (x < 1 + 2)%nat ->
         data canvas (k / 3 * (1 + 2) + y) (k mod 3 * (1 + 2) + x) =
           data (bordered (snd f)) y x) /\
    (forall k, (length [("pdf-2"%string, np_full 1 1 (40, 50, 60)%Z);
                        ("pdf-1"%string, np_full 1 1 (10, 20, 30)%Z)] <= k < 1 * 3)%nat ->
       forall y x, (y < 1 + 2)%nat -> (x < 1 + 2)%nat ->
         data canvas (k / 3 * (1 + 2) + y) (k mod 3 * (1 + 2) + x) = (200, 200, 200)).
Proof.
  apply (collate_saves_sorted_grid _ "abc" 1 3 ∅
           [("pdf-2", np_full 1 1 (40, 50, 60)); ("pdf-1", np_full 1 1 (10, 20, 30))] 1 1).
  - reflexivity.
  - discriminate.
  - intros f Hf. rewrite !elem_of_cons in Hf.
    destruct Hf as [->|[->|Hf]]; [| | exfalso; exact (proj1 (elem_of_nil f) Hf)];
      (split; [reflexivity | intros y x _ _; cbn; lia]).
  - cbn. lia.
Defined.

(** The two pages of the witness come out in the order of their stems. *)
Example collate_orders_pages :
  match collate_pdf_by_sha
          {["abc" := [("pdf-2", np_full 1 1 (40, 50, 60)); ("pdf-1", np_full 1 1 (10, 20, 30))]]}
          "abc" 1 3 ∅ with
  | (Return _, collated) =>
      match collated !! "abc" with
      | Some c => Some (shape c, [data c 1 1; data c 1 4; data c 1 7])
      | None => None
      end
  | _ => None
  end = Some ((3%nat, 9%nat), [(10, 20, 30); (40, 50, 60); (200, 200, 200)]).
Proof. vm_compute. reflexivity. Qed.

(** *** [collate_all] *)

Lemma collate_pdf_by_sha_cases pdf_pages sha rows cols (collated : collated_dir) :
  (exists canvas,
     collate_pdf_by_sha pdf_pages sha rows cols collated =
       (Return tt, <[sha := canvas]> collated)) \/
  (exists e, collate_pdf_by_sha pdf_pages sha rows cols collated = (Raise e, collated)).
Proof.
  unfold collate_pdf_by_sha. cbv zeta.
  destruct (length _ <=? rows * cols)%nat; [|right; eauto].
  destruct (arrange_pages_horizontal _ rows cols (200, 200, 200)); [left | right]; eauto.
Qed.

Lemma collate_all_only_adds_aux (pdf_pages : pages_dir) (commits : list string)
    (collated : collated_dir) :
  collated ⊆ snd (collate_all pdf_pages commits collated) /\
  (fst (collate_all pdf_pages commits collated) = Return tt ->
   forall sha, sha ∈ commits ->
     is_Some (snd (collate_all pdf_pages commits collated) !! sha)).
Proof.
  revert collated. induction commits as [|sha commits IH]; intros collated.
  - split; [reflexivity|]. intros _ sha Hsha. exfalso. exact (proj1 (elem_of_nil sha) Hsha).
  - cbn [collate_all]. destruct (collated !! sha) as [img|] eqn:E.
    + destruct (IH collated) as [Hsub Hall]. split; [exact Hsub|].
      intros Hret s Hs. apply elem_of_cons in Hs as [->|Hs]; [|apply Hall; assumption].
      exists img. eapply lookup_weaken; [exact E | exact Hsub].
    + destruct (collate_pdf_by_sha_cases pdf_pages sha 8 12 collated)
        as [(canvas & ->) | (e & ->)].
      * destruct (IH (<[sha := canvas]> collated)) as [Hsub Hall]. split.
        -- etrans; [apply insert_subseteq; exact E | exact Hsub].
        -- intros Hret s Hs. apply elem_of_cons in Hs as [->|Hs]; [|apply Hall; assumption].
           exists canvas. eapply lookup_weaken; [apply lookup_insert_eq | exact Hsub].
      * cbn [fst snd]. split; [reflexivity | discriminate].
Qed.

(** X10: [collate_all] never replaces or removes a collated image, whether
    it returns or raises; and when it returns, every commit has one. *)
Theorem collate_all_only_adds (pdf_pages : pages_dir) (commits : list string)
    (collated : collated_dir) :
  (forall sha img, collated !! sha = Some img ->
     snd (collate_all pdf_pages commits collated) !! sha = Some img) /\
  (fst (collate_all pdf_pages commits collated) = Return tt ->
   forall sha, sha ∈ commits ->
     is_Some (snd (collate_all pdf_pages commits collated) !! sha)).
Proof.
  destruct (collate_all_only_adds_aux pdf_pages commits collated) as [Hsub Hall].
  split; [|exact Hall].
  intros sha img Hsha. eapply lookup_weaken; [exact Hsha | exact Hsub].
Qed.

(** A run over commits that all have their image does nothing, whatever the
    page files are. *)
Lemma collate_all_skips (pdf_pages : pages_dir) (commits : list string)
    (collated : collated_dir) :
  (forall sha, sha ∈ commits -> is_Some (collated !! sha)) ->
  collate_all pdf_pages commits collated = (Return tt, collated).
Proof.
  induction commits as [|sha commits IH]; intros Hall; [reflexivity|].
  cbn [collate_all]. destruct (Hall sha ltac:(apply list_elem_of_here)) as [img ->].
  apply IH. intros s Hs. apply Hall. apply list_elem_of_further, Hs.
Qed.

(** X11: after a run of [collate_all] that returned, another run over the
    same commits returns and changes nothing, also when the page files have
    changed in between: an existing image is not looked at again. *)
Theorem collate_all_idempotent (pdf_pages pdf_pages' : pages_dir) (commits : list string)
    (collated : collated_dir) :
  fst (collate_all pdf_pages commits collated) = Return tt ->
  collate_all pdf_pages' commits (snd (collate_all pdf_pages commits collated)) =
    (Return tt, snd (collate_all pdf_pages commits collated)).
Proof.
  intros Hret. apply collate_all_skips.
  apply (proj2 (collate_all_only_adds_aux pdf_pages commits collated) Hret).
Qed.


Lemma collate_all_idempotent_witness :
  collate_all ∅ ["abc"%string]
    (snd (collate_all
            {["abc" := [("pdf-1", np_full 1 1 (10, 20, 30))]]} ["abc"%string] ∅)) =
    (Return tt,
     snd (collate_all {["abc" := [("pdf-1", np_full 1 1 (10, 20, 30))]]} ["abc"%string] ∅)).
Proof.
  apply (collate_all_idempotent
           {["abc" := [("pdf-1", np_full 1 1 (10, 20, 30))]]} ∅ ["abc"%string] ∅).
  vm_compute. reflexivity.
Defined.

Lemma collate_all_app (pdf_pages : pages_dir) (before after : list string)
    (collated : collated_dir) :
  collate_all pdf_pages (before ++ after) collated =
    match collate_all pdf_pages before collated with
    | (Return _, collated') => collate_all pdf_pages after collated'
    | (Raise e, collated') => (Raise e, collated')
    end.
Proof.
  revert collated. induction before as [|sha before IH]; intros collated; [reflexivity|].
  cbn [app collate_all]. destruct (collated !! sha); [apply IH|].
  destruct (collate_pdf_by_sha pdf_pages sha 8 12 collated) as [[[]|e] c']; [apply IH | reflexivity].
Qed.

(** X12: [collate_all] stops at the first commit without an image that has
    no page file ([IndexError]) or more than the 96 page files that the
    8 by 12 grid holds ([AssertionError]): the images saved for the commits
    before it stay, and no commit after it is handled. *)
Theorem collate_all_stops (pdf_pages : pages_dir) (before after : list string)
    (sha : string) (collated saved : collated_dir) :
  collate_all pdf_pages before collated = (Return tt, saved) ->
  saved !! sha = None ->
  (default [] (pdf_pages !! sha) = [] ->
     collate_all pdf_pages (before ++ sha :: after) collated = (Raise IndexError, saved)) /\
  ((96 < length (default [] (pdf_pages !! sha)))%nat ->
     collate_all pdf_pages (before ++ sha :: after) collated = (Raise AssertionError, saved)).
Proof.
  intros Hbefore Hnone. rewrite collate_all_app, Hbefore. cbn [collate_all]. rewrite Hnone.
  unfold collate_pdf_by_sha. cbv zeta. split.
  - intros ->. reflexivity.
  - intros Hmany. rewrite sort_by_stem_length.
    destruct (Nat.leb_spec (length (default [] (pdf_pages !! sha))) (8 * 12)); [lia|].
    reflexivity.
Qed.

Lemma collate_all_stops_witness :
  (default [] (({["abc" := [("pdf-1", np_full 1 1 (10, 20, 30))]]} : pages_dir) !! "gone") = [] ->
     collate_all {["abc" := [("pdf-1", np_full 1 1 (10, 20, 30))]]}
       (["abc"%string] ++ "gone"%string :: ["abc"%string]) ∅ =
       (Raise IndexError,
        snd (collate_all {["abc" := [("pdf-1", np_full 1 1 (10, 20, 30))]]}
               ["abc"%string] ∅))) /\
  ((96 < length (default []
                   (({["abc" := [("pdf-1", np_full 1 1 (10, 20, 30)%Z)]]} : pages_dir)
                      !! "gone")))%nat ->
     collate_all {["abc" := [("pdf-1", np_full 1 1 (10, 20, 30))]]}
       (["abc"%string] ++ "gone"%string :: ["abc"%string]) ∅ =
       (Raise AssertionError,
        snd (collate_all {["abc" := [("pdf-1", np_full 1 1 (10, 20, 30))]]}
               ["abc"%string] ∅))).
Proof.
  apply (collate_all_stops {["abc" := [("pdf-1", np_full 1 1 (10, 20, 30))]]}
           ["abc"%string] ["abc"%string] "gone" ∅).
  - vm_compute. reflexivity.
  - vm_compute. reflexivity.
Defined.


(** *** [find_maximum_number_pages] *)

Lemma dict_set_fresh {V : Type} (k : string) (v : V) d :
  k ∉ d.*1 -> dict_set k v d = d ++ [(k, v)].
Proof.
  induction d as [|[k' v'] d IH]; intros Hk; [reflexivity|].
  cbn [dict_set]. rewrite fmap_cons in Hk. apply not_elem_of_cons in Hk as [Hne Hk].
  destruct (String.eqb_spec k k') as [E|_]; [contradiction|].
  cbn [app]. rewrite IH by exact Hk. reflexivity.
Qed.

(** Folders of distinct stems make a dictionary with one item per folder, in
    the order of the listing. *)
Lemma number_of_images_distinct folders :
  NoDup folders.*1 -> number_of_images folders = folders.
Proof.
  unfold number_of_images.
  assert (Hgen : forall d, NoDup (d ++ folders).*1 ->
            foldl (fun d folder => dict_set (fst folder) (snd folder) d) d folders
              = d ++ folders).
  { induction folders as [|[k v] folders IH]; intros d Hnd; [by rewrite app_nil_r|].
    cbn [foldl fst snd]. rewrite dict_set_fresh.
    - rewrite IH; rewrite <- app_assoc; [reflexivity | exact Hnd].
    - rewrite fmap_app in Hnd. apply NoDup_app in Hnd as (_ & Hdisj & _).
      intros Hin. apply (Hdisj k Hin). cbn. apply list_elem_of_here. }
  intros Hnd. apply (Hgen []). exact Hnd.
Qed.

Lemma foldl_max_ge (v : nat) l :
  (v <= foldl Nat.max v l)%nat /\ (forall x, x ∈ l -> (x <= foldl Nat.max v l)%nat) /\
  (foldl Nat.max v l = v \/ foldl Nat.max v l ∈ l).
Proof.
  revert v. induction l as [|y l IH]; intros v; cbn [foldl].
  - split; [lia|]. split; [|left; reflexivity].
    intros x Hx. exfalso. exact (proj1 (elem_of_nil x) Hx).
  - destruct (IH (Nat.max v y)) as (Hv & Hall & Hatt). split; [lia|]. split.
    + intros x Hx. apply elem_of_cons in Hx as [->|Hx]; [lia | apply Hall, Hx].
    + destruct Hatt as [E|Hin]; [|right; apply list_elem_of_further, Hin].
      destruct (Nat.max_spec v y) as [[_ Hm]|[_ Hm]]; rewrite Hm in E |- *.
      * right. rewrite E. apply list_elem_of_here.
      * left. exact E.
Qed.

(** X13: for folders of distinct stems, one at least,
    [find_maximum_number_pages] returns a number of pages that some folder
    has and that no folder exceeds; with [save] set it writes the header and
    one line per folder, in the order of the listing. *)
Theorem maximum_number_pages (folders : list (string * nat)) (save : bool) :
  folders <> [] -> NoDup folders.*1 ->
  exists m,
    find_maximum_number_pages folders save =
      (Return m, if save then Some (number_of_pages_txt folders) else None) /\
    (forall folder, folder ∈ folders -> (snd folder <= m)%nat) /\
    (exists folder, folder ∈ folders /\ snd folder = m).
Proof.
  intros Hne Hnd. unfold find_maximum_number_pages. cbv zeta.
  rewrite (number_of_images_distinct folders Hnd).
  destruct folders as [|[k v] rest]; [contradiction|].
  cbn [fmap list_fmap snd py_max].
  destruct (foldl_max_ge v (rest.*2)) as (Hv & Hall & Hatt).
  eexists. split; [reflexivity|]. split.
  - intros folder Hf. apply elem_of_cons in Hf as [->|Hf]; [exact Hv|].
    apply Hall. apply list_elem_of_fmap. eauto.
  - destruct Hatt as [E|Hin].
    + exists (k, v). split; [apply list_elem_of_here | symmetry; exact E].
    + apply list_elem_of_fmap in Hin as (f & E & Hf).
      exists f. split; [apply list_elem_of_further, Hf | symmetry; exact E].
Qed.

Lemma maximum_number_pages_witness :
  exists m,
    find_maximum_number_pages [("abc"%string, 12%nat); ("def"%string, 30%nat)] true =
      (Return m, Some (number_of_pages_txt [("abc"%string, 12%nat); ("def"%string, 30%nat)])) /\
    (forall folder, folder ∈ [("abc"%string, 12%nat); ("def"%string, 30%nat)] ->
       (snd folder <= m)%nat) /\
    (exists folder, folder ∈ [("abc"%string, 12%nat); ("def"%string, 30%nat)] /\
                    snd folder = m).
Proof.
  apply (maximum_number_pages [("abc"%string, 12%nat); ("def"%string, 30%nat)] true).
  - discriminate.
  - apply (bool_decide_unpack _). vm_compute. exact I.
Defined.

(** The file of the witness. *)
Example number_of_pages_file :
  snd (find_maximum_number_pages [("abc"%string, 12%nat); ("def"%string, 30%nat)] true) =
    Some ("sha;pages" +:+ newline +:+ "abc;12" +:+ newline +:+ "def;30" +:+ newline).
Proof. vm_compute. reflexivity. Qed.

(** Two folders of one stem, as [a.x] and [a.y] are, make one item, with
    the count of the folder listed last: the maximum can be below the count
    of a folder. *)
Example maximum_misses_folder :
  find_maximum_number_pages [("a"%string, 5%nat); ("a"%string, 3%nat)] false = (Return 3%nat, None).
Proof. reflexivity. Qed.

(** No folder: the file is written, with its header only, and then [max]
    raises. *)
Example maximum_of_no_folder :
  find_maximum_number_pages [] true = (Raise ValueError, Some ("sha;pages" +:+ newline)).
Proof. reflexivity. Qed.

End CollateSpec.

(** ** LayoutContinuityTransfer and LayoutScaler: further properties *)

Module CloudExtra.
Import Cloud CloudSpec.

Lemma select_none src own : select false false false false false src own = own.
Proof. destruct own; reflexivity. Qed.

(** X14: with all flags off the transfer returns its target and leaves the
    whole heap, the target included, as it was. *)
Theorem transfer_flags_off (h : heap) (reference_cloud target_cloud : cloud)
    (R T : list entry) :
  h !! reference_cloud = Some R -> h !! target_cloud = Some T ->
  transfer_stats_between_wc reference_cloud target_cloud false false false false false h =
    (Return target_cloud, h).
Proof.
  intros HR HT. rewrite (transfer_run h _ _ R T _ _ _ _ _ HR HT). f_equal.
  rewrite <- (insert_id h target_cloud T HT) at 2. f_equal.
  rewrite <- (list_fmap_id T) at 2. apply list_fmap_ext. intros i x _. apply select_none.
Qed.

Lemma transfer_flags_off_witness :
  transfer_stats_between_wc 1 2 false false false false false sample_heap =
    (Return 2%positive, sample_heap).
Proof.
  apply (transfer_flags_off sample_heap 1 2 sample_reference sample_target); reflexivity.
Defined.

Lemma select_twice tf tp to tc tu src own :
  select tf tp to tc tu src (select tf tp to tc tu src own) = select tf tp to tc tu src own.
Proof. destruct tf, tp, to, tc, tu; reflexivity. Qed.

(** X15: the transfer is idempotent: done again from the same reference,
    another object than the target, with the same flags, it changes
    nothing. *)
Theorem transfer_idempotent (h h1 : heap) (reference_cloud target_cloud : cloud)
    (R T : list entry) (tf tp to tc tu : bool) :
  h !! reference_cloud = Some R -> h !! target_cloud = Some T ->
  reference_cloud <> target_cloud ->
  transfer_stats_between_wc reference_cloud target_cloud tf tp to tc tu h =
    (Return target_cloud, h1) ->
  transfer_stats_between_wc reference_cloud target_cloud tf tp to tc tu h1 =
    (Return target_cloud, h1).
Proof.
  intros HR HT Hne Hrun. rewrite (transfer_run h _ _ R T _ _ _ _ _ HR HT) in Hrun.
  injection Hrun as <-.
  erewrite transfer_run;
    [| rewrite lookup_insert_ne by congruence; exact HR | apply lookup_insert_eq].
  rewrite insert_insert_eq. do 2 f_equal.
  rewrite <- list_fmap_compose. apply list_fmap_ext. intros i x _. cbn.
  apply select_twice.
Qed.

Lemma transfer_idempotent_witness :
  transfer_stats_between_wc 1 2 false true false true false
    (snd (transfer_stats_between_wc 1 2 false true false true false sample_heap)) =
    (Return 2%positive,
     snd (transfer_stats_between_wc 1 2 false true false true false sample_heap)).
Proof.
  apply (transfer_idempotent sample_heap _ 1 2 sample_reference sample_target
           false true false true false);
    [reflexivity | reflexivity | discriminate | vm_compute; reflexivity].
Defined.


(** *** [scale_wordcloud] *)

(** The scaling of a transferred entry looks at its word only, and what it
    builds has nothing of the entry but the word. *)
Lemma scale_item_by_word np_log10 (R : list entry) t r scale_type item1 item2 :
  word item1 = word item2 ->
  scale_item np_log10 (dict_of fs R) t r scale_type (moved R item1) =
  scale_item np_log10 (dict_of fs R) t r scale_type (moved R item2).
Proof.
  intros Hw. unfold scale_item. change (word (moved R item1)) with (word item1).
  change (word (moved R item2)) with (word item2). rewrite Hw.
  destruct (scaled_font_size np_log10 (dict_of fs R) (word item2) t r scale_type);
    [|reflexivity].
  cbn [mbind pyresult_bind]. unfold set_fs, moved, select. cbn. rewrite Hw. reflexivity.
Qed.

Lemma moved_by_word (R : list entry) (T1 T2 : list entry) np_log10 t r scale_type :
  word <$> T1 = word <$> T2 ->
  Forall2 (fun a b => scale_item np_log10 (dict_of fs R) t r scale_type a =
                      scale_item np_log10 (dict_of fs R) t r scale_type b)
    (moved R <$> T1) (moved R <$> T2).
Proof.
  revert T2. induction T1 as [|a T1 IH]; intros [|b T2] Hw; try discriminate;
    [constructor|].
  cbn in Hw. injection Hw as Hab Hw. cbn [fmap list_fmap]. constructor.
  - apply scale_item_by_word, Hab.
  - apply IH, Hw.
Qed.

(** X16: the scaling discards what the target holds but its words: two
    targets with the same words in the same order, scaled against the same
    reference (another object), have the same outcome, the same exception
    when one is raised, and when the call returns they come out the same,
    whatever their font sizes, positions, orientations and colours were.  In
    log mode, with counts that numpy takes as 64-bit integers and reference
    font sizes that have a binary64 value, the call returns. *)
Theorem scale_keeps_words_only (np_log10 : Z -> float) (h : heap)
    (target_cloud reference_cloud : cloud) (R T1 T2 : list entry)
    (t r : Z) (scale_type : string) :
  h !! reference_cloud = Some R -> reference_cloud <> target_cloud ->
  word <$> T1 = word <$> T2 ->
  let run1 := scale_wordcloud np_log10 target_cloud reference_cloud t r scale_type
                (<[target_cloud := T1]> h) in
  let run2 := scale_wordcloud np_log10 target_cloud reference_cloud t r scale_type
                (<[target_cloud := T2]> h) in
  fst run1 = fst run2 /\
  (fst run1 = Return target_cloud -> snd run1 = snd run2) /\
  (scale_type = "log"%string ->
   - 2 ^ 63 <= t < 2 ^ 64 -> - 2 ^ 63 <= r < 2 ^ 64 ->
   Forall (fun x => has_float (fs x) = true) R ->
   fst run1 = Return target_cloud).
Proof.
  intros HR Hne Hwords run1 run2.
  assert (HR1 : <[target_cloud := T1]> h !! reference_cloud = Some R)
    by (rewrite lookup_insert_ne by congruence; exact HR).
  assert (HR2 : <[target_cloud := T2]> h !! reference_cloud = Some R)
    by (rewrite lookup_insert_ne by congruence; exact HR).
  assert (Hlen : length T1 = length T2).
  { rewrite <- (length_fmap word T1), Hwords. apply length_fmap. }
  destruct (run_items_agree (scale_item np_log10 (dict_of fs R) t r scale_type) (length T1)
              (moved R <$> T1) (moved R <$> T2)
              (moved_by_word R T1 T2 np_log10 t r scale_type Hwords)) as [Hfst Hsnd].
  unfold run1, run2.
  rewrite (scale_run np_log10 _ _ _ R T1 t r scale_type HR1 (lookup_insert_eq _ _ _)).
  rewrite (scale_run np_log10 _ _ _ R T2 t r scale_type HR2 (lookup_insert_eq _ _ _)).
  rewrite !insert_insert_eq, <- Hlen. cbn [fst snd]. split; [|split].
  - rewrite Hfst. reflexivity.
  - intros Hret. rewrite Hsnd; [reflexivity | rewrite length_fmap; lia |].
    destruct (fst (run_items _ _ (moved R <$> T1))) as [[]|e]; [reflexivity | discriminate].
  - intros -> Ht Hr Hfs.
    rewrite (run_items_map _ (fun x => set_fs x
               (NumFloat64 (to_float (reference_font_size R (word x))
                            * np_log10 t / np_log10 r)))); [reflexivity|].
    intros x Hx. apply (subseteq_take _ _ x) in Hx.
    apply list_elem_of_fmap in Hx as (x0 & -> & _). unfold scale_item. change (word (moved R x0)) with (word x0).
    rewrite scaled_font_size_log, log_scale_returns;
      [reflexivity | assumption | assumption |].
    apply reference_font_size_has_float, Hfs.
Qed.

Lemma scale_keeps_words_only_witness :
  let run1 := scale_wordcloud log10_sample 2 1 100 10 "log"
                (<[2%positive := sample_target]> sample_heap) in
  let run2 := scale_wordcloud log10_sample 2 1 100 10 "log"
                (<[2%positive := [default_entry "a"; default_entry "c"]]> sample_heap) in
  fst run1 = fst run2 /\
  (fst run1 = Return 2%positive -> snd run1 = snd run2) /\
  ("log"%string = "log"%string ->
   - 2 ^ 63 <= 100 < 2 ^ 64 -> - 2 ^ 63 <= 10 < 2 ^ 64 ->
   Forall (fun x => has_float (fs x) = true) sample_reference ->
   fst run1 = Return 2%positive).
Proof.
  apply (scale_keeps_words_only log10_sample sample_heap 2 1 sample_reference
           sample_target [default_entry "a"; default_entry "c"] 100 10 "log");
    [reflexivity | discriminate | reflexivity].
Defined.

(** An entry that the scaling has built is left as it is by the transfer,
    and the scaling builds it again. *)
Lemma scale_item_again np_log10 (R : list entry) t r scale_type x y :
  scale_item np_log10 (dict_of fs R) t r scale_type (moved R x) = Return y ->
  scale_item np_log10 (dict_of fs R) t r scale_type (moved R y) = Return y.
Proof.
  unfold scale_item. change (word (moved R x)) with (word x).
  destruct (scaled_font_size np_log10 (dict_of fs R) (word x) t r scale_type) as [s|e] eqn:E;
    [|discriminate].
  cbn [mbind pyresult_bind]. intros Hy. injection Hy as <-.
  change (word (moved R (set_fs (moved R x) s))) with (word x). rewrite E. reflexivity.
Qed.

Lemma run_items_fixed (g : entry -> pyresult entry) (f : entry -> entry) l :
  Forall (fun y => g (f y) = Return y) l ->
  run_items (length l) g (f <$> l) = (Return tt, l).
Proof.
  induction 1 as [|y l Hy _ IH]; [reflexivity|].
  cbn [length fmap list_fmap run_items]. rewrite Hy, IH. reflexivity.
Qed.

(** X17: the scaling is idempotent: done again with the same reference
    (another object), counts and mode, it changes nothing. *)
Theorem scale_idempotent (np_log10 : Z -> float) (h h1 : heap)
    (target_cloud reference_cloud : cloud) (R T : list entry)
    (t r : Z) (scale_type : string) :
  h !! reference_cloud = Some R -> h !! target_cloud = Some T ->
  reference_cloud <> target_cloud ->
  scale_type = "log"%string \/ (scale_type = "linear"%string /\ r <> 0) ->
  scale_wordcloud np_log10 target_cloud reference_cloud t r scale_type h =
    (Return target_cloud, h1) ->
  scale_wordcloud np_log10 target_cloud reference_cloud t r scale_type h1 =
    (Return target_cloud, h1).
Proof.
  intros HR HT Hne _ Hrun.
  rewrite (scale_run np_log10 h _ _ R T t r scale_type HR HT) in Hrun.
  set (g := scale_item np_log10 (dict_of fs R) t r scale_type) in *.
  destruct (fst (run_items (length T) g (moved R <$> T))) as [[]|e] eqn:Hfst;
    [|discriminate].
  injection Hrun as <-.
  pose proof (run_items_returned g (length T) (moved R <$> T)
                ltac:(rewrite length_fmap; lia) Hfst) as Hall.
  set (T' := snd (run_items (length T) g (moved R <$> T))) in *.
  assert (Hfix : Forall (fun y => g (moved R y) = Return y) T').
  { clear -Hall. revert Hall. generalize T'. clear T'.
    induction T as [|x T IH]; intros T' Hall; cbn [fmap list_fmap] in Hall.
    - apply Forall2_nil_inv_l in Hall as ->. constructor.
    - apply Forall2_cons_inv_l in Hall as (y & T'' & Hy & Hall & ->).
      constructor; [|apply IH, Hall].
      apply (scale_item_again np_log10 R t r scale_type x y Hy). }
  rewrite (scale_run np_log10 _ _ _ R T' t r scale_type);
    [| rewrite lookup_insert_ne by congruence; exact HR | apply lookup_insert_eq].
  fold g. rewrite (run_items_fixed g (moved R) T' Hfix). cbn [fst snd].
  rewrite insert_insert_eq. reflexivity.
Qed.

Lemma scale_idempotent_witness :
  scale_wordcloud log10_sample 2 1 100 10 "log"
    (snd (scale_wordcloud log10_sample 2 1 100 10 "log" sample_heap)) =
    (Return 2%positive, snd (scale_wordcloud log10_sample 2 1 100 10 "log" sample_heap)).
Proof.
  apply (scale_idempotent log10_sample sample_heap _ 2 1 sample_reference sample_target
           100 10 "log");
    [reflexivity | reflexivity | discriminate | left; reflexivity | vm_compute; reflexivity].
Defined.


(** An assignment to an item writes the list of its cloud only. *)
Lemma setitem_frame c i e (h : heap) c' :
  c' <> c -> snd (setitem c i e h) !! c' = h !! c'.
Proof.
  intros Hne. unfold setitem. destruct (h !! c) as [l|]; [|reflexivity].
  destruct (i <? length l)%nat; [|reflexivity].
  cbn [snd]. apply lookup_insert_ne. congruence.
Qed.

Lemma scale_body_frame np_log10 d t r scale_type c i item (h : heap) c' :
  c' <> c -> snd (scale_body np_log10 d t r scale_type c i item h) !! c' = h !! c'.
Proof.
  intros Hne. unfold scale_body, lift, mbind, py_bind.
  destruct (scaled_font_size np_log10 d (word item) t r scale_type); [|reflexivity].
  apply setitem_frame, Hne.
Qed.

Lemma for_enumerate_from_frame (body : nat -> entry -> py unit) c c' :
  (forall i item (h : heap), snd (body i item h) !! c' = h !! c') ->
  forall n i (h : heap), snd (for_enumerate_from n c i body h) !! c' = h !! c'.
Proof.
  intros Hbody n. induction n as [|n IH]; intros i h; [reflexivity|].
  cbn [for_enumerate_from]. unfold mbind at 1, py_bind at 1, layout_.
  destruct (h !! c) as [l|]; [|reflexivity].
  destruct (l !! i) as [item|]; [|reflexivity].
  unfold mbind, py_bind. specialize (Hbody i item h).
  destruct (body i item h) as [[[]|e] h1]; cbn [snd] in *; [|exact Hbody].
  rewrite IH. exact Hbody.
Qed.

Lemma for_enumerate_frame (body : nat -> entry -> py unit) c c' (h : heap) :
  (forall i item (h : heap), snd (body i item h) !! c' = h !! c') ->
  snd (for_enumerate c body h) !! c' = h !! c'.
Proof.
  intros Hbody. unfold for_enumerate, mbind, py_bind, layout_.
  destruct (h !! c) as [l|]; [|reflexivity].
  apply for_enumerate_from_frame, Hbody.
Qed.

Lemma snd_bind_mret {A B : Type} (m : py A) (b : B) (h : heap) :
  snd ((m ≫= fun _ => mret b) h) = snd (m h).
Proof. unfold mbind, py_bind. destruct (m h) as [[a|e] h']; reflexivity. Qed.

(** X18: in every mode and whether it returns or raises, the scaling writes
    nothing but the list of its target: the reference, when it is another
    object, and every other cloud are as before. *)
Theorem scale_writes_target_only (np_log10 : Z -> float) (h : heap)
    (target_cloud reference_cloud : cloud) (R T : list entry)
    (t r : Z) (scale_type : string) (c : cloud) :
  h !! reference_cloud = Some R -> h !! target_cloud = Some T ->
  c <> target_cloud ->
  snd (scale_wordcloud np_log10 target_cloud reference_cloud t r scale_type h) !! c = h !! c.
Proof.
  intros HR HT Hne. unfold scale_wordcloud.
  rewrite (bind_run _ _ _ _ _ (transfer_run _ _ _ R T _ _ _ _ _ HR HT)).
  fold (moved R).
  destruct (font_sizes_after_transfer _ _ _ _ _ HR HT) as (R' & HR' & Hd).
  rewrite (bind_run _ _ _ _ _ (layout_run _ _ _ HR')).
  rewrite snd_bind_mret, for_enumerate_frame.
  - apply lookup_insert_ne. congruence.
  - intros i item h'. apply scale_body_frame, Hne.
Qed.

Lemma scale_writes_target_only_witness :
  snd (scale_wordcloud log10_sample 2 1 100 10 "logistic" sample_heap) !! 1%positive
    = sample_heap !! 1%positive.
Proof.
  apply (scale_writes_target_only log10_sample sample_heap 2 1 sample_reference sample_target
           100 10 "logistic" 1);
    [reflexivity | reflexivity | discriminate].
Defined.

(** The scaling raises in the first iteration of its loop when the first
    word has no scaled font size; the transfer has been done by then. *)
Lemma scale_raises_first np_log10 (h : heap) (target_cloud reference_cloud : cloud)
    (R T : list entry) item t r scale_type e :
  h !! reference_cloud = Some R -> h !! target_cloud = Some (item :: T) ->
  scaled_font_size np_log10 (dict_of fs R) (word item) t r scale_type = Raise e ->
  scale_wordcloud np_log10 target_cloud reference_cloud t r scale_type h =
    (Raise e, <[target_cloud := moved R <$> (item :: T)]> h).
Proof.
  intros HR HT Hraise. unfold scale_wordcloud.
  rewrite (bind_run _ _ _ _ _ (transfer_run _ _ _ R (item :: T) _ _ _ _ _ HR HT)).
  fold (moved R).
  destruct (font_sizes_after_transfer _ _ _ _ _ HR HT) as (R' & HR' & Hd).
  rewrite (bind_run _ _ _ _ _ (layout_run _ _ _ HR')). rewrite Hd.
  set (h1 := <[target_cloud := moved R <$> (item :: T)]> h).
  assert (Hh1 : h1 !! target_cloud = Some (moved R <$> (item :: T)))
    by apply lookup_insert_eq.
  unfold mbind at 1, py_bind at 1. unfold for_enumerate.
  rewrite (bind_run _ _ _ _ _ (layout_run _ _ _ Hh1)).
  cbn [fmap list_fmap length for_enumerate_from].
  rewrite (bind_run _ _ _ _ _ (layout_run _ _ _ Hh1)).
  cbn [fmap list_fmap lookup list_lookup].
  unfold mbind, py_bind, scale_body, lift.
  change (word (moved R item)) with (word item). rewrite Hraise. reflexivity.
Qed.

(** X19: on a target that has entries, the mode "logistic" raises
    [AssertionError] and any mode other than "linear", "log" and "logistic"
    raises [UnboundLocalError], in both cases after the transfer has
    rewritten the target; on a target without entries every mode returns
    and the heap is as before. *)
Theorem scale_unsupported_modes (np_log10 : Z -> float) (h : heap)
    (target_cloud reference_cloud : cloud) (R T : list entry)
    (t r : Z) (scale_type : string) :
  h !! reference_cloud = Some R -> h !! target_cloud = Some T ->
  (T <> [] -> scale_type = "logistic"%string ->
     scale_wordcloud np_log10 target_cloud reference_cloud t r scale_type h =
       (Raise AssertionError, <[target_cloud := moved R <$> T]> h)) /\
  (T <> [] -> scale_type <> "linear"%string -> scale_type <> "log"%string ->
   scale_type <> "logistic"%string ->
     scale_wordcloud np_log10 target_cloud reference_cloud t r scale_type h =
       (Raise UnboundLocalError, <[target_cloud := moved R <$> T]> h)) /\
  (T = [] ->
     scale_wordcloud np_log10 target_cloud reference_cloud t r scale_type h =
       (Return target_cloud, h)).
Proof.
  intros HR HT. split; [|split].
  - intros Hne ->. destruct T as [|item T]; [contradiction|].
    apply scale_raises_first; [assumption..|]. reflexivity.
  - intros Hne H1 H2 H3. destruct T as [|item T]; [contradiction|].
    apply scale_raises_first; [assumption..|]. unfold scaled_font_size.
    apply String.eqb_neq in H1, H2, H3. rewrite H1, H2, H3. reflexivity.
  - intros ->. unfold scale_wordcloud.
    rewrite (bind_run _ _ _ _ _ (transfer_run _ _ _ R [] _ _ _ _ _ HR HT)).
    cbn [fmap list_fmap]. rewrite (insert_id h target_cloud [] HT).
    rewrite (bind_run _ _ _ _ _ (layout_run _ _ _ HR)).
    unfold mbind at 1, py_bind at 1. unfold for_enumerate.
    rewrite (bind_run _ _ _ _ _ (layout_run _ _ _ HT)). reflexivity.
Qed.

Lemma scale_unsupported_modes_witness :
  (sample_target <> [] -> "sigmoid"%string = "logistic"%string ->
     scale_wordcloud log10_sample 2 1 100 10 "sigmoid" sample_heap =
       (Raise AssertionError, <[2%positive := moved sample_reference <$> sample_target]>
                                sample_heap)) /\
  (sample_target <> [] -> "sigmoid"%string <> "linear"%string ->
   "sigmoid"%string <> "log"%string -> "sigmoid"%string <> "logistic"%string ->
     scale_wordcloud log10_sample 2 1 100 10 "sigmoid" sample_heap =
       (Raise UnboundLocalError, <[2%positive := moved sample_reference <$> sample_target]>
                                   sample_heap)) /\
  (sample_target = [] ->
     scale_wordcloud log10_sample 2 1 100 10 "sigmoid" sample_heap =
       (Return 2%positive, sample_heap)).
Proof.
  apply (scale_unsupported_modes log10_sample sample_heap 2 1 sample_reference sample_target
           100 10 "sigmoid"); reflexivity.
Defined.

(** X20: in linear mode with a reference count of zero the scaling raises
    [ZeroDivisionError] at the first entry of the target when the reference
    font size of its word is a Python integer (the reference's own, or the
    default 1); the transfer has rewritten the target by then and no font
    size has been scaled. *)
Theorem scale_linear_zero_count (np_log10 : Z -> float) (h : heap)
    (target_cloud reference_cloud : cloud) (R T : list entry) (item : entry)
    (t z : Z) :
  h !! reference_cloud = Some R -> h !! target_cloud = Some (item :: T) ->
  reference_font_size R (word item) = NumInt z ->
  scale_wordcloud np_log10 target_cloud reference_cloud t 0 "linear" h =
    (Raise ZeroDivisionError, <[target_cloud := moved R <$> (item :: T)]> h).
Proof.
  intros HR HT Hfs. apply scale_raises_first; [assumption..|].
  unfold scaled_font_size. cbn [String.eqb]. rewrite get_reference_font_size, Hfs.
  reflexivity.
Qed.

Lemma scale_linear_zero_count_witness :
  scale_wordcloud log10_sample 2 1 100 0 "linear" sample_heap =
    (Raise ZeroDivisionError,
     <[2%positive := moved sample_reference <$>
                       (Entry "a" (PyFloat 1) (NumInt 8) (PyTuple [PyInt 9; PyInt 9])
                          (PyInt 2) (PyStr "green")
                        :: [Entry "c" (PyFloat 0.25) (NumInt 3) (PyTuple [PyInt 5; PyInt 5])
                              PyNone (PyStr "black")])]> sample_heap).
Proof.
  apply (scale_linear_zero_count log10_sample sample_heap 2 1 sample_reference _ _ 100 10);
    reflexivity.
Defined.

(** X22: what makes the log mode fail is not a domain of the counts but
    the conversions: at the first entry of the target, [np.log10] raises
    [TypeError] on a target count that numpy does not take as a 64-bit
    integer; otherwise the product raises [OverflowError] when the reference
    font size of the word is an integer without a binary64 value; otherwise
    [np.log10] raises [TypeError] on such a reference count.  The transfer has
    rewritten the target by then and no font size has been scaled. *)
Theorem scale_log_failures (np_log10 : Z -> float) (h : heap)
    (target_cloud reference_cloud : cloud) (R T : list entry) (item : entry)
    (t r : Z) :
  h !! reference_cloud = Some R -> h !! target_cloud = Some (item :: T) ->
  (~ - 2 ^ 63 <= t < 2 ^ 64 ->
     scale_wordcloud np_log10 target_cloud reference_cloud t r "log" h =
       (Raise TypeError, <[target_cloud := moved R <$> (item :: T)]> h)) /\
  (- 2 ^ 63 <= t < 2 ^ 64 -> has_float (reference_font_size R (word item)) = false ->
     scale_wordcloud np_log10 target_cloud reference_cloud t r "log" h =
       (Raise OverflowError, <[target_cloud := moved R <$> (item :: T)]> h)) /\
  (- 2 ^ 63 <= t < 2 ^ 64 -> has_float (reference_font_size R (word item)) = true ->
   ~ - 2 ^ 63 <= r < 2 ^ 64 ->
     scale_wordcloud np_log10 target_cloud reference_cloud t r "log" h =
       (Raise TypeError, <[target_cloud := moved R <$> (item :: T)]> h)).
Proof.
  intros HR HT. split; [|split].
  - intros Ht. apply scale_raises_first; [assumption..|].
    rewrite scaled_font_size_log. unfold log_scale, log10_int.
    destruct (is_int64_or_uint64 t) eqn:E; [|reflexivity].
    apply is_int64_or_uint64_spec in E. contradiction.
  - intros Ht Hfs. apply scale_raises_first; [assumption..|].
    rewrite scaled_font_size_log. unfold log_scale, log10_int.
    apply is_int64_or_uint64_spec in Ht. rewrite Ht. cbn [mbind pyresult_bind].
    destruct (reference_font_size R (word item)) as [z|f|f]; try discriminate.
    unfold has_float in Hfs. apply negb_false_iff in Hfs.
    unfold mul_float64, float_of_int. rewrite Hfs. reflexivity.
  - intros Ht Hfs Hr. apply scale_raises_first; [assumption..|].
    rewrite scaled_font_size_log. unfold log_scale, log10_int.
    apply is_int64_or_uint64_spec in Ht. rewrite Ht. cbn [mbind pyresult_bind].
    rewrite (mul_float64_has_float _ _ Hfs). cbn [mbind pyresult_bind].
    destruct (is_int64_or_uint64 r) eqn:E; [|reflexivity].
    apply is_int64_or_uint64_spec in E. contradiction.
Qed.

Lemma scale_log_failures_witness :
  (~ - 2 ^ 63 <= 2 ^ 64 < 2 ^ 64 ->
     scale_wordcloud log10_sample 2 1 (2 ^ 64) 10 "log" sample_heap =
       (Raise TypeError,
        <[2%positive := moved sample_reference <$>
            (Entry "a" (PyFloat 1) (NumInt 8) (PyTuple [PyInt 9; PyInt 9]) (PyInt 2)
               (PyStr "green")
             :: [Entry "c" (PyFloat 0.25) (NumInt 3) (PyTuple [PyInt 5; PyInt 5]) PyNone
                   (PyStr "black")])]> sample_heap)) /\
  (- 2 ^ 63 <= 2 ^ 64 < 2 ^ 64 ->
   has_float (reference_font_size sample_reference "a") = false ->
     scale_wordcloud log10_sample 2 1 (2 ^ 64) 10 "log" sample_heap =
       (Raise OverflowError,
        <[2%positive := moved sample_reference <$>
            (Entry "a" (PyFloat 1) (NumInt 8) (PyTuple [PyInt 9; PyInt 9]) (PyInt 2)
               (PyStr "green")
             :: [Entry "c" (PyFloat 0.25) (NumInt 3) (PyTuple [PyInt 5; PyInt 5]) PyNone
                   (PyStr "black")])]> sample_heap)) /\
  (- 2 ^ 63 <= 2 ^ 64 < 2 ^ 64 ->
   has_float (reference_font_size sample_reference "a") = true ->
   ~ - 2 ^ 63 <= 10 < 2 ^ 64 ->
     scale_wordcloud log10_sample 2 1 (2 ^ 64) 10 "log" sample_heap =
       (Raise TypeError,
        <[2%positive := moved sample_reference <$>
            (Entry "a" (PyFloat 1) (NumInt 8) (PyTuple [PyInt 9; PyInt 9]) (PyInt 2)
               (PyStr "green")
             :: [Entry "c" (PyFloat 0.25) (NumInt 3) (PyTuple [PyInt 5; PyInt 5]) PyNone
                   (PyStr "black")])]> sample_heap)).
Proof.
  apply (scale_log_failures log10_sample sample_heap 2 1 sample_reference
           [Entry "c" (PyFloat 0.25) (NumInt 3) (PyTuple [PyInt 5; PyInt 5]) PyNone
              (PyStr "black")]
           (Entry "a" (PyFloat 1) (NumInt 8) (PyTuple [PyInt 9; PyInt 9]) (PyInt 2)
              (PyStr "green"))
           (2 ^ 64) 10);
    reflexivity.
Defined.

(** The three failures of the log mode on the sample, the second with a
    reference font size of [2^1024]. *)
Example scale_log_failures_sample :
  fst (scale_wordcloud log10_sample 2 1 (- 2 ^ 63 - 1) 10 "log" sample_heap)
    = Raise TypeError /\
  fst (scale_wordcloud log10_sample 2 1 100 10 "log"
         (<[1%positive := [Entry "a" PyNone (NumInt (2 ^ 1024)) PyNone PyNone PyNone]]>
            sample_heap)) = Raise OverflowError /\
  fst (scale_wordcloud log10_sample 2 1 100 (2 ^ 64) "log" sample_heap) = Raise TypeError.
Proof. vm_compute. auto. Qed.

End CloudExtra.
